(** * Flight-data generation and cleaning: a shallow embedding

    The development embeds [DataGeneration_cleaning.py] and states the
    properties of its analysis phase ([process_files]), of its record
    generator ([generate_flight_record]) and of its entry point ([main]).

    Conventions of the embedding:
    - Python exceptions are values of [exn]; code that may raise lives in the
      [result] monad.
    - Flight durations and passenger numbers are [Z].  Averages and
      percentiles are exact rationals ([Q]) where pandas and numpy hold the
      nearest double: what is stated of them is a bound, or a value at which
      the arithmetic in doubles is exact.  The passenger sums of an integer
      column wrap around as int64 additions do; sums are stated as sums for
      numbers in the range in which pandas adds exactly.
    - A record is a dict: besides the five named keys it can carry any
      other key, whose value the dirty test sees as well.
    - City identifiers are strings compared as Python compares [str]:
      lexicographically, character code by character code.
    - The pandas and numpy operations the program calls are embedded in the
      modules [Pandas] and [Numpy] from their documented behaviour. *)

From Stdlib Require Import List ZArith QArith Qround String Ascii Bool Lia.
From Stdlib Require Import Permutation Sorted OrderedTypeEx.
Import ListNotations.

Local Open Scope Z_scope.

(** ** Python values, exceptions and results *)

Module Py.

(** The exceptions the program can meet. [OSError] carries its message,
    [KeyError] the key that was not found. *)
Inductive exn : Type :=
| OSError (msg : string)
| JSONDecodeError
| TypeError
| AttributeError
| KeyError (key : string)
| ValueError
| IndexError.

(** Outcome of a computation.  [Unspecified] marks the single place where
    pandas releases disagree (numeric reductions over a column that holds no
    number at all, which pandas types as [object]); the embedding does not
    pick one of them. *)
Inductive result (A : Type) : Type :=
| Ok (a : A)
| Raise (e : exn)
| Unspecified.

Arguments Ok {A} a.
Arguments Raise {A} e.
Arguments Unspecified {A}.

Definition bind {A B : Type} (m : result A) (k : A -> result B) : result B :=
  match m with
  | Ok a => k a
  | Raise e => Raise e
  | Unspecified => Unspecified
  end.

Definition is_OSError (e : exn) : bool :=
  match e with OSError _ => true | _ => false end.

(** A value stored under a key of a record; [PyOther] is any JSON value
    that is not null, a string or an integer. *)
Inductive value : Type :=
| PyNone
| PyStr (s : string)
| PyInt (z : Z)
| PyOther.

Definition is_None (v : value) : bool :=
  match v with PyNone => true | _ => false end.

(** [any(p(x) for x in xs)] *)
Definition any {A : Type} (p : A -> bool) (xs : list A) : bool := existsb p xs.

(** [random.choice(seq)] is [seq[_randbelow(len(seq))]]; [draw] is the raw
    random number, reduced below the length. *)
Definition choice {A : Type} (draw : nat) (seq : list A) (default : A) : A :=
  nth (draw mod List.length seq) seq default.

(** [random.randint(a, b)]: an integer of [a..b], both ends included. *)
Definition randint (a b : Z) (draw : nat) : Z := a + Z.of_nat draw mod (b - a + 1).

End Py.

Import Py.

Notation "x <- m ;; k" := (bind m (fun x => k))
  (at level 61, m at next level, right associativity).

(** ** Flight records *)

(** A key of a record dict is absent, holds [None], or holds a value. *)
Inductive field (A : Type) : Type :=
| Missing
| Null
| Val (a : A).

Arguments Missing {A}.
Arguments Null {A}.
Arguments Val {A} a.

(** A flight record: a dict.  Each of the five keys the program names is
    absent, null, or holds a value of the type the generator writes;
    [others] are the remaining keys of the dict with their values. *)
Record flight : Type := mk_flight {
  date : field string;
  origin_city : field string;
  destination_city : field string;
  flight_duration_secs : field Z;
  num_passengers : field Z;
  others : list (string * value)
}.

Inductive key : Type :=
| Kdate | Korigin_city | Kdestination_city | Kflight_duration_secs | Knum_passengers.

Definition key_name (k : key) : string :=
  match k with
  | Kdate => "date"
  | Korigin_city => "origin_city"
  | Kdestination_city => "destination_city"
  | Kflight_duration_secs => "flight_duration_secs"
  | Knum_passengers => "num_passengers"
  end.

Definition field_values {A : Type} (inj : A -> value) (f : field A) : list value :=
  match f with
  | Missing => []
  | Null => [PyNone]
  | Val a => [inj a]
  end.

(** [record.values()]: the value of every key of the dict. *)
Definition values (r : flight) : list value :=
  field_values PyStr (date r) ++ field_values PyStr (origin_city r)
  ++ field_values PyStr (destination_city r)
  ++ field_values PyInt (flight_duration_secs r)
  ++ field_values PyInt (num_passengers r)
  ++ map snd (others r).

Definition is_present {A : Type} (f : field A) : bool :=
  match f with Missing => false | _ => true end.

Definition is_null {A : Type} (f : field A) : bool :=
  match f with Null => true | _ => false end.

Definition is_val {A : Type} (f : field A) : bool :=
  match f with Val _ => true | _ => false end.

(** [k in record] *)
Definition has_key (k : key) (r : flight) : bool :=
  match k with
  | Kdate => is_present (date r)
  | Korigin_city => is_present (origin_city r)
  | Kdestination_city => is_present (destination_city r)
  | Kflight_duration_secs => is_present (flight_duration_secs r)
  | Knum_passengers => is_present (num_passengers r)
  end.

(** [record[k] is None] for a key that is present *)
Definition holds_null (k : key) (r : flight) : bool :=
  match k with
  | Kdate => is_null (date r)
  | Korigin_city => is_null (origin_city r)
  | Kdestination_city => is_null (destination_city r)
  | Kflight_duration_secs => is_null (flight_duration_secs r)
  | Knum_passengers => is_null (num_passengers r)
  end.

Definition all_keys : list key :=
  [Kdate; Korigin_city; Kdestination_city; Kflight_duration_secs; Knum_passengers].

(** [record[k] = None] *)
Definition set_none (k : key) (r : flight) : flight :=
  match k with
  | Kdate => mk_flight Null (origin_city r) (destination_city r)
               (flight_duration_secs r) (num_passengers r) (others r)
  | Korigin_city => mk_flight (date r) Null (destination_city r)
               (flight_duration_secs r) (num_passengers r) (others r)
  | Kdestination_city => mk_flight (date r) (origin_city r) Null
               (flight_duration_secs r) (num_passengers r) (others r)
  | Kflight_duration_secs => mk_flight (date r) (origin_city r) (destination_city r)
               Null (num_passengers r) (others r)
  | Knum_passengers => mk_flight (date r) (origin_city r) (destination_city r)
               (flight_duration_secs r) Null (others r)
  end.

(** [del record[k]]: the same record without the key. *)
Definition drop_key (k : key) (r : flight) : flight :=
  match k with
  | Kdate => mk_flight Missing (origin_city r) (destination_city r)
               (flight_duration_secs r) (num_passengers r) (others r)
  | Korigin_city => mk_flight (date r) Missing (destination_city r)
               (flight_duration_secs r) (num_passengers r) (others r)
  | Kdestination_city => mk_flight (date r) (origin_city r) Missing
               (flight_duration_secs r) (num_passengers r) (others r)
  | Kflight_duration_secs => mk_flight (date r) (origin_city r) (destination_city r)
               Missing (num_passengers r) (others r)
  | Knum_passengers => mk_flight (date r) (origin_city r) (destination_city r)
               (flight_duration_secs r) Missing (others r)
  end.

(** The specification's classification: a record is clean iff all five
    fields are present and non-null, and dirty otherwise. *)
Definition clean (r : flight) : bool :=
  is_val (date r) && is_val (origin_city r) && is_val (destination_city r)
  && is_val (flight_duration_secs r) && is_val (num_passengers r).

(** The program's test, [any(value is None for value in record.values())]. *)
Definition has_none (r : flight) : bool := any is_None (values r).

(** Some key other than the five named ones holds null. *)
Definition other_nulls (r : flight) : bool := any is_None (map snd (others r)).

(** ** The generator *)

Definition total_cities : nat := 150.
Definition prob_null : Q := 1 # 1000.
Definition dir_name : string := "tmp/flights".

(** Decimal rendering of a number, as an f-string does it. *)
Fixpoint digits (fuel n : nat) (acc : string) : string :=
  match fuel with
  | O => acc
  | S fuel' =>
      let acc' := String (ascii_of_nat (48 + n mod 10)) acc in
      if (n / 10 =? 0)%nat then acc' else digits fuel' (n / 10) acc'
  end.

Definition str_of_nat (n : nat) : string := digits (S n) n EmptyString.

(** [cities = [f"city_{i}" for i in range(total_cities)]] *)
Definition cities : list string :=
  map (fun i => ("city_" ++ str_of_nat i)%string) (seq 0 total_cities).

(** The random draws one call of [generate_flight_record] consumes, in the
    order the call makes them; [today] is [datetime.date.today().isoformat()]. *)
Record draws : Type := mk_draws {
  today : string;
  draw_origin : nat;          (* random.choice(cities) *)
  draw_destination : nat;     (* random.choice(cities) *)
  draw_duration : nat;        (* random.randint(3600, 7200) *)
  draw_passengers : nat;      (* random.randint(50, 200) *)
  draw_uniform : Q;           (* random.random() *)
  draw_null_field : nat       (* random.choice(list(record.keys())) *)
}.

(** [random.random() < prob_null] *)
Definition Qltb (x y : Q) : bool := negb (Qle_bool y x).

Definition generate_flight_record (d : draws) : flight :=
  let record :=
    mk_flight (Val (today d))
              (Val (choice (draw_origin d) cities EmptyString))
              (Val (choice (draw_destination d) cities EmptyString))
              (Val (randint 3600 7200 (draw_duration d)))
              (Val (randint 50 200 (draw_passengers d)))
              [] in
  if Qltb (draw_uniform d) prob_null then
    let null_field := choice (draw_null_field d) all_keys Kdate in
    set_none null_field record
  else record.

Definition null_count (r : flight) : nat :=
  List.length (filter (fun k => holds_null k r) all_keys).

(** ** Sorting *)

(** Insertion sort by a boolean order; an element goes in front of the first
    element it is below or equal to, so the sort is stable. *)
Section Sorting.
Context {A : Type} (leb : A -> A -> bool).

Fixpoint insert (x : A) (l : list A) : list A :=
  match l with
  | [] => [x]
  | y :: l' => if leb x y then x :: l else y :: insert x l'
  end.

Definition sort (l : list A) : list A := fold_right insert [] l.
End Sorting.

(** ** The pandas operations the program uses *)

Module Pandas.

(** A column has one cell per row; [None] is NA ([None] or [NaN]). *)
Definition cell {A : Type} (f : field A) : option A :=
  match f with Val a => Some a | _ => None end.

(** [Series.dropna()] *)
Fixpoint dropna {A : Type} (col : list (option A)) : list A :=
  match col with
  | [] => []
  | Some a :: col' => a :: dropna col'
  | None :: col' => dropna col'
  end.

(** [Series.unique()]: the distinct labels in order of first appearance. *)
Fixpoint unique (l : list string) : list string :=
  match l with
  | [] => []
  | x :: l' => x :: filter (fun y => negb (String.eqb x y)) (unique l')
  end.

Definition count (x : string) (l : list string) : nat := count_occ string_dec l x.

(** Order of [value_counts] and [nlargest]: larger count first. *)
Definition by_count_desc (p q : string * nat) : bool := (snd q <=? snd p)%nat.

(** [Series.value_counts()]: NA dropped, one entry per distinct label with
    the number of its occurrences, larger counts first.  pandas leaves the
    order of labels of equal count to its sort; here they stay in order of
    first appearance. *)
Definition value_counts (col : list (option string)) : list (string * nat) :=
  let labels := dropna col in
  sort by_count_desc (map (fun k => (k, count k labels)) (unique labels)).

(** [Series.nlargest(n)] with [keep='first']. *)
Definition nlargest (n : nat) (s : list (string * nat)) : list (string * nat) :=
  firstn n (sort by_count_desc s).

(** [Series.index.tolist()] *)
Definition index {V : Type} (s : list (string * V)) : list string := map fst s.

(** One cell of [Series.isin(labels)]. *)
Definition isin (x : option string) (labels : list string) : bool :=
  match x with
  | Some c => existsb (String.eqb c) labels
  | None => false
  end.

Definition in_group (k : string) (x : option string) : bool :=
  match x with
  | Some c => String.eqb c k
  | None => false
  end.

(** [rows.groupby(by)]: one group per distinct non-NA key, groups in
    ascending key order ([sort=True]), rows of a group in frame order. *)
Definition groupby {R : Type} (by_ : R -> option string) (rows : list R)
  : list (string * list R) :=
  map (fun k => (k, filter (fun r => in_group k (by_ r)) rows))
      (sort String.leb (unique (dropna (map by_ rows)))).

(** Sum of a list of numbers. *)
Definition total (xs : list Z) : Z := fold_right Z.add 0 xs.

(** An int64 number that left the range in an addition: pandas adds an
    int64 column without overflow check, in two's complement. *)
Definition wrap_int64 (z : Z) : Z := (z + 2 ^ 63) mod 2 ^ 64 - 2 ^ 63.

(** [sum] of a group of an int64 column. *)
Definition sum_int64 (xs : list Z) : Z := wrap_int64 (total xs).

(** [sum] of a group of a float64 column, NA skipped.  The sum is exact, as
    the sum in doubles is while the absolute values of the numbers add up to
    less than 2^53; beyond that pandas rounds, which is not modelled. *)
Definition sum (xs : list (option Z)) : Z := total (dropna xs).

(** [mean] of a group, NA skipped; [None] is NaN, the mean of no number.
    The quotient is the exact rational; pandas holds the double nearest to
    it. *)
Definition mean (xs : list (option Z)) : option Q :=
  match dropna xs with
  | [] => None
  | ys => Some (total ys # Pos.of_nat (List.length ys))
  end.

(** [Series.idxmax()]: position of the first occurrence of the maximum;
    [None] on an empty series, where pandas raises [ValueError]. *)
Fixpoint idxmax (vals : list Z) : option nat :=
  match vals with
  | [] => None
  | v :: vs =>
      match idxmax vs with
      | Some i => if v <? nth i vs 0 then Some (S i) else Some O
      | None => Some O
      end
  end.

(** A numeric column built from ints and NA is a float or int column as soon
    as it holds one number; with no number at all its dtype is [object]. *)
Definition is_numeric (col : list (option Z)) : bool :=
  existsb (fun c => match c with Some _ => true | None => false end) col.

End Pandas.

(** ** The numpy operation the program uses *)

Module Numpy.

(** [np.percentile(a, q)] with the default linear method, for a non-empty
    [a]: the virtual index is [(n-1) * q/100]; the result interpolates
    between the sorted elements at its floor and at the next position (kept
    inside the array) with the fractional part as weight.  The arithmetic
    is exact; numpy does it in doubles and holds a value that can differ
    from this one in the last digits. *)
Definition percentile (a : list Z) (q : Z) : Q :=
  let arr := sort Z.leb a in
  let n := Z.of_nat (List.length a) in
  let virtual_index_x100 := (n - 1) * q in
  let previous_index := virtual_index_x100 / 100 in
  let next_index := Z.min (previous_index + 1) (n - 1) in
  let gamma := (virtual_index_x100 mod 100) # 100 in
  let previous := nth (Z.to_nat previous_index) arr 0 in
  let next := nth (Z.to_nat next_index) arr 0 in
  (inject_Z previous + inject_Z (next - previous) * gamma)%Q.

End Numpy.

(** ** The analysis phase *)

(** An element of a parsed JSON array: an object (a record dict) or any
    other JSON value. *)
Inductive element : Type :=
| Obj (r : flight)
| NotObj.

(** What [json.load] returns for a file: an array, an object (of which
    only the keys matter here), a string, or a number, boolean or null. *)
Inductive document : Type :=
| Array (es : list element)
| Object (ks : list string)
| Str (s : string)
| Scalar.

(** A file of the corpus: [open] fails with an [OSError], or [json.load]
    rejects the text, or the text parses. *)
Inductive file : Type :=
| Unreadable (msg : string)
| Undecodable
| Parsed (d : document).

(** [with open(...) as f: records = json.load(f)] *)
Definition load (f : file) : result document :=
  match f with
  | Unreadable msg => Raise (OSError msg)
  | Undecodable => Raise JSONDecodeError
  | Parsed d => Ok d
  end.

(** [len(records)] *)
Definition len (records : document) : result nat :=
  match records with
  | Array es => Ok (List.length es)
  | Object ks => Ok (List.length ks)
  | Str s => Ok (String.length s)
  | Scalar => Raise TypeError
  end.

(** The elements [for record in records] visits: the elements of an array,
    the keys of an object, the characters of a string. *)
Definition iter (records : document) : list element :=
  match records with
  | Array es => es
  | Object ks => map (fun _ => NotObj) ks
  | Str s => map (fun _ => NotObj) (list_ascii_of_string s)
  | Scalar => []
  end.

(** [record.values()]; only a dict has the method. *)
Definition record_values (record : element) : result (list value) :=
  match record with
  | Obj r => Ok (values r)
  | NotObj => Raise AttributeError
  end.

(** The inner loop: [dirty_records += 1] on every record holding a [None].
    The [continue] that follows ends the loop body, which has no statement
    after it. *)
Fixpoint count_dirty (records : list element) (dirty_records : nat) : result nat :=
  match records with
  | [] => Ok dirty_records
  | record :: rest =>
      vs <- record_values record ;;
      count_dirty rest (if any is_None vs then S dirty_records else dirty_records)
  end.

Definition dicts (records : list element) : list flight :=
  flat_map (fun e => match e with Obj r => [r] | NotObj => [] end) records.

(** The loop state of [process_files]. *)
Record counters : Type := mk_counters {
  total_records : nat;
  dirty_records : nat;
  all_records : list flight
}.

(** The body of the loop over files.  [all_records.extend(records)] comes
    after the inner loop and appends every element of the file. *)
Definition read_file (st : counters) (f : file) : result counters :=
  records <- load f ;;
  n <- len records ;;
  let total_records' := (total_records st + n)%nat in
  dirty_records' <- count_dirty (iter records) (dirty_records st) ;;
  Ok (mk_counters total_records' dirty_records'
                  (all_records st ++ dicts (iter records))).

Fixpoint read_files (files : list file) (st : counters) : result counters :=
  match files with
  | [] => Ok st
  | f :: files' => st' <- read_file st f ;; read_files files' st'
  end.

(** [os.walk(dir_name)] flattened to the files in visiting order.  A root
    that does not exist ([None]) is walked as an empty tree: [os.walk]
    ignores the error of listing it. *)
Definition os_walk (root : option (list file)) : list file :=
  match root with
  | Some files => files
  | None => []
  end.

(** What the run prints, the wall-clock duration left out. *)
Record report : Type := mk_report {
  rep_total_records : nat;
  rep_dirty_records : nat;
  avg_p95 : list (string * option Q * Q);
  max_arrived : string;
  passengers_arrived : Z;
  max_left : string;
  passengers_left : Z
}.

Import Pandas.

(** [df[k]]: [KeyError] unless some record has the key. *)
Definition column {A : Type} (k : key) (get : flight -> field A) (df : list flight)
  : result (list (option A)) :=
  if existsb (has_key k) df then Ok (map (fun r => cell (get r)) df)
  else Raise (KeyError (key_name k)).

Definition dest (r : flight) : option string := cell (destination_city r).
Definition orig (r : flight) : option string := cell (origin_city r).
Definition duration (r : flight) : option Z := cell (flight_duration_secs r).
Definition passengers (r : flight) : option Z := cell (num_passengers r).

(** The aggregation lambda of the program:
    [np.percentile(x.dropna(), 95) if len(x.dropna()) > 0 else 0]. *)
Definition p95 (x : list (option Z)) : Q :=
  if (0 <? List.length (dropna x))%nat then Numpy.percentile (dropna x) 95 else 0%Q.

Definition top_25_cities (df : list flight) : list string :=
  index (nlargest 25 (value_counts (map dest df))).

Definition df_top_25 (df : list flight) : list flight :=
  filter (fun r => isin (dest r) (top_25_cities df)) df.

Definition avg_p95_table (df : list flight) : list (string * option Q * Q) :=
  map (fun g => (fst g, mean (map duration (snd g)), p95 (map duration (snd g))))
      (groupby dest (df_top_25 df)).

(** The dtype of the column [num_passengers]: int64 when every row of the
    frame holds a number, float64 as soon as one is NA.  (Numbers that do
    not fit int64, for which pandas chooses yet another dtype, are outside
    the range in which the sums are stated as sums.) *)
Definition passengers_int64 (df : list flight) : bool :=
  forallb (fun r => match passengers r with Some _ => true | None => false end) df.

(** The aggregation of one group of [num_passengers], by the dtype of the
    column. *)
Definition sum_passengers_of (df : list flight) (rows : list flight) : Z :=
  if passengers_int64 df then sum_int64 (dropna (map passengers rows))
  else sum (map passengers rows).

(** [df.groupby(by)['num_passengers'].sum().reset_index()] *)
Definition passenger_sums (by_ : flight -> option string) (df : list flight)
  : list (string * Z) :=
  map (fun g => (fst g, sum_passengers_of df (snd g))) (groupby by_ df).

(** [t.loc[t[value].idxmax()][label]] with the value printed next to it,
    [t.loc[t[label] == city, value].values[0]]. *)
Definition loc_idxmax (t : list (string * Z)) : result (string * Z) :=
  match idxmax (map snd t) with
  | None => Raise ValueError
  | Some i =>
      let city := fst (nth i t (EmptyString, 0)) in
      match filter (fun row => String.eqb (fst row) city) t with
      | row :: _ => Ok (city, snd row)
      | [] => Raise IndexError
      end
  end.

(** The part of [process_files] after the loop. *)
Definition analyse (st : counters) : result report :=
  let df := all_records st in
  _ <- column Kdestination_city destination_city df ;;
  durations <- column Kflight_duration_secs flight_duration_secs df ;;
  _ <- (if is_numeric durations then Ok tt else Unspecified) ;;
  let table := avg_p95_table df in
  pax <- column Knum_passengers num_passengers df ;;
  _ <- (if is_numeric pax then Ok tt else Unspecified) ;;
  arrived <- loc_idxmax (passenger_sums dest df) ;;
  _ <- column Korigin_city origin_city df ;;
  left <- loc_idxmax (passenger_sums orig df) ;;
  Ok (mk_report (total_records st) (dirty_records st) table
                (fst arrived) (snd arrived) (fst left) (snd left)).

Definition process_files (root : option (list file)) : result report :=
  st <- read_files (os_walk root) (mk_counters 0 0 []) ;;
  analyse st.

(** ** The entry point *)

(** What reaches standard output from the analysis or from the handlers of
    [main]: the report, ["Error : " ++ msg], or the fixed notice
    ["Exception occured , can not proceed further "]. *)
Inductive stdout : Type :=
| PrintedReport (r : report)
| PrintedError (msg : string)
| PrintedNotice.

(** [main]: [generate_files(); process_files()] under the two handlers.
    [generated] is the outcome of [generate_files()], whose writes leave the
    tree [root] on disk.  Both handlers return normally, so does the body:
    the exit status is 0 in each case. *)
Definition main (generated : result unit) (root : option (list file))
  : result (stdout * Z) :=
  match (_ <- generated ;; process_files root) with
  | Ok r => Ok (PrintedReport r, 0)
  | Raise (OSError msg) => Ok (PrintedError msg, 0)
  | Raise _ => Ok (PrintedNotice, 0)
  | Unspecified => Unspecified
  end.

(** ** Writing the corpus *)

Definition number_files : nat := 5000.
Definition records_per_file : Z * Z := (50, 100).

(** What one iteration of the loop of [generate_files] takes from the clock
    and from the random generator, in the order it does: the time stamp of
    the file name ([strftime('%m-%y-%H-%M-%S-%f')]), the city of the file
    name, the number of records, and the draws of each record. *)
Record file_draws : Type := mk_file_draws {
  stamp : string;
  draw_file_city : nat;        (* random.choice(cities) *)
  draw_size : nat;             (* random.randint over records_per_file *)
  draw_records : nat -> draws  (* one generate_flight_record() per index *)
}.

(** The [OSError]s the operating system may answer with, each with its
    message: to [shutil.rmtree], to [os.makedirs], and to the [open] or the
    write of the i-th file. *)
Record faults : Type := mk_faults {
  rmtree_fault : option string;
  makedirs_fault : option string;
  open_fault : nat -> option string
}.

(** The files of the corpus directory by name. *)
Definition directory : Type := list (string * file).

(** [open(filename, "w")] followed by [json.dump]: a file of that name is
    replaced, a new name is added. *)
Fixpoint write (name : string) (content : file) (d : directory) : directory :=
  match d with
  | [] => [(name, content)]
  | (n, c) :: d' =>
      if String.eqb n name then (n, content) :: d' else (n, c) :: write name content d'
  end.

Definition filename (fd : file_draws) : string :=
  (dir_name ++ "/" ++ stamp fd ++ "-" ++ choice (draw_file_city fd) cities EmptyString
   ++ "-flights.json")%string.

(** [[generate_flight_record() for _ in range(random.randint(50, 100))]] *)
Definition generate_records (fd : file_draws) : list flight :=
  map (fun j => generate_flight_record (draw_records fd j))
      (seq 0 (Z.to_nat (randint (fst records_per_file) (snd records_per_file)
                                (draw_size fd)))).

(** The loop over [range(number_files)].  What [json.dump] writes for a
    list of records is what [json.load] reads back as an array of the same
    objects. *)
Fixpoint write_files (fl : faults) (rnd : nat -> file_draws) (indices : list nat)
         (d : directory) : result directory :=
  match indices with
  | [] => Ok d
  | i :: rest =>
      let name := filename (rnd i) in
      let records := generate_records (rnd i) in
      match open_fault fl i with
      | Some msg => Raise (OSError msg)
      | None => write_files fl rnd rest (write name (Parsed (Array (map Obj records))) d)
      end
  end.

Definition cannot_be_removed : string := (dir_name ++ " exists, can not be removed")%string.

(** The body of the [try] of [generate_files]: the lines printed and the
    outcome, which on success is the new content of the directory.
    [before] is the content of [dir_name] when the call starts, [None] when
    the path does not exist. *)
Definition generate_files_body (fl : faults) (rnd : nat -> file_draws)
           (before : option directory) : list string * result directory :=
  let removal :=
    match before with
    | Some _ =>
        match rmtree_fault fl with
        | Some msg => ([(dir_name ++ " exists")%string], Raise (OSError msg))
        | None => ([(dir_name ++ " exists")%string;
                    (dir_name ++ " has been removed successfully")%string], Ok tt)
        end
    | None => ([], Ok tt)
    end in
  match snd removal with
  | Raise e => (fst removal, Raise e)
  | Unspecified => (fst removal, Unspecified)
  | Ok _ =>
      match makedirs_fault fl with
      | Some msg => (fst removal, Raise (OSError msg))
      | None =>
          let lines := fst removal ++ [(dir_name ++ " created successfully")%string;
                                       "Generating files"%string] in
          match write_files fl rnd (seq 0 number_files) [] with
          | Ok d => (lines ++ [("Generating files finished in path : " ++ dir_name)%string],
                     Ok d)
          | failed => (lines, failed)
          end
      end
  end.

(** [generate_files]: the body under its [except OSError] handler, which
    prints the error and a fixed line and raises a new [OSError] with the
    fixed line as message. *)
Definition generate_files (fl : faults) (rnd : nat -> file_draws)
           (before : option directory) : list string * result directory :=
  let body := generate_files_body fl rnd before in
  match snd body with
  | Raise (OSError msg) =>
      (fst body ++ [msg; cannot_be_removed], Raise (OSError cannot_be_removed))
  | _ => body
  end.

(** The whole program: [main] on the outcome of [generate_files], the walk
    visiting the files of the written directory in the order [visit]. *)
Definition run (fl : faults) (rnd : nat -> file_draws) (before : option directory)
           (visit : directory -> list file) : list string * result (stdout * Z) :=
  let generated := generate_files fl rnd before in
  (fst generated,
   main (_ <- snd generated ;; Ok tt)
        (match snd generated with
         | Ok d => Some (visit d)
         | _ => None
         end)).

(** ** Notions used to state the properties *)

(** The records a file hands to the frame when the loop gets through it. *)
Definition records_of (f : file) : list flight :=
  match f with
  | Parsed d => dicts (iter d)
  | _ => []
  end.

(** The rows of [df]: the records of all files, in visiting order. *)
Definition frame (root : option (list file)) : list flight :=
  flat_map records_of (os_walk root).

Definition is_obj (e : element) : bool :=
  match e with Obj _ => true | NotObj => false end.

(** The files the loop body gets through without raising. *)
Definition passes (f : file) : bool :=
  match f with
  | Parsed (Array es) => forallb is_obj es
  | Parsed (Object ks) => match ks with [] => true | _ => false end
  | Parsed (Str s) => match s with EmptyString => true | _ => false end
  | Parsed Scalar => false
  | Unreadable _ => false
  | Undecodable => false
  end.

(** A file that can be opened but whose contents are not a JSON array and
    make the loop body raise: text that does not parse, a number, boolean
    or null, a non-empty object, a non-empty string. *)
Definition malformed (f : file) : bool :=
  match f with
  | Undecodable => true
  | Parsed Scalar => true
  | Parsed (Object (_ :: _)) => true
  | Parsed (Str (String _ _)) => true
  | _ => false
  end.

Definition readable (f : file) : bool :=
  match f with Unreadable _ => false | _ => true end.

(** The keys of a grouping: the distinct non-NA keys, ascending. *)
Definition group_keys {R : Type} (by_ : R -> option string) (rows : list R) : list string :=
  sort String.leb (unique (dropna (map by_ rows))).

(** Number of rows of the frame whose destination is [c]. *)
Definition frequency (c : string) (df : list flight) : nat :=
  Pandas.count c (Pandas.dropna (map dest df)).

(** The destination cities of the frame, and its origin cities. *)
Definition destinations (df : list flight) : list string :=
  Pandas.unique (Pandas.dropna (map dest df)).

Definition origins (df : list flight) : list string :=
  Pandas.unique (Pandas.dropna (map orig df)).

(** The series [nlargest] cuts: the destination counts, larger first. *)
Definition ranked (df : list flight) : list (string * nat) :=
  sort Pandas.by_count_desc (Pandas.value_counts (map dest df)).

(** The durations the frame holds for destination [c]. *)
Definition durations_of (c : string) (df : list flight) : list Z :=
  Pandas.dropna (map duration (filter (fun r => Pandas.in_group c (dest r)) df)).

(** The city column of the reported table. *)
Definition table_cities (t : list (string * option Q * Q)) : list string :=
  map (fun row => fst (fst row)) t.

(** The percentile as the specification words it: the value at rank
    [0.95 * (n-1)] of the sorted collection, interpolated linearly between
    the values at the floor and at the ceiling of the rank. *)
Definition spec_rank (n : nat) : Q := ((95 # 100) * inject_Z (Z.of_nat n - 1))%Q.

Definition spec_p95 (durs : list Z) : Q :=
  let sorted := sort Z.leb durs in
  let rank := spec_rank (List.length durs) in
  let lo := nth (Z.to_nat (Qfloor rank)) sorted 0 in
  let hi := nth (Z.to_nat (Qceiling rank)) sorted 0 in
  (inject_Z lo + (rank - inject_Z (Qfloor rank)) * (inject_Z hi - inject_Z lo))%Q.

(** The ranking as the specification words it: clean-record frequency
    descending, city identifier ascending among equal frequencies; the
    table lists the first 25 cities of the ranking in that order. *)
Definition by_rank (p q : string * nat) : bool :=
  (snd q <? snd p)%nat || ((snd p =? snd q)%nat && String.leb (fst p) (fst q)).

Definition spec_top_25 (df : list flight) : list string :=
  let labels := Pandas.dropna (map dest (filter clean df)) in
  map fst (firstn 25 (sort by_rank
    (map (fun k => (k, Pandas.count k labels)) (Pandas.unique labels)))).

(** No tie in frequency straddles the cut of [nlargest(25)]: every city
    that is kept is strictly more frequent than every city that is not. *)
Definition no_tie_at_cut (df : list flight) : Prop :=
  forall c c' : string,
    In c (top_25_cities df) -> In c' (destinations df) -> ~ In c' (top_25_cities df) ->
    (frequency c' df < frequency c df)%nat.

(** Equality test on keys. *)
Definition key_eqb (k k' : key) : bool :=
  match k, k' with
  | Kdate, Kdate | Korigin_city, Korigin_city
  | Kdestination_city, Kdestination_city
  | Kflight_duration_secs, Kflight_duration_secs
  | Knum_passengers, Knum_passengers => true
  | _, _ => false
  end.

(** The generator replaces the value of key [k] by null: the uniform draw
    fell below [prob_null] and the key drawn for the null is [k]. *)
Definition nulled (d : draws) (k : key) : bool :=
  Qltb (draw_uniform d) prob_null
  && key_eqb (choice (draw_null_field d) all_keys Kdate) k.

(** The table with its rationals in lowest terms. *)
Definition normal_table (t : list (string * option Q * Q)) : list (string * option Q * Q) :=
  map (fun row => (fst (fst row), option_map Qred (snd (fst row)), Qred (snd row))) t.

(** The report of a run that printed one. *)
Definition report_of (x : result report) : report :=
  match x with
  | Ok r => r
  | _ => mk_report 0 0 [] EmptyString 0 EmptyString 0
  end.

(** Every record of the frame carries all five keys. *)
Definition all_keys_present (df : list flight) : bool :=
  forallb (fun r => forallb (fun k => has_key k r) all_keys) df.

(** No record of the frame holds null under a key other than the five. *)
Definition no_other_nulls (df : list flight) : bool :=
  forallb (fun r => negb (other_nulls r)) df.

(** Some row of the frame holds a value in the column. *)
Definition has_value {A : Type} (get : flight -> option A) (df : list flight) : bool :=
  existsb (fun r => match get r with Some _ => true | None => false end) df.

(** The exception the loop body raises on a file it does not get through:
    [open] fails, [json.load] fails, [len] of a number, boolean or null
    fails, or an element has no [values] method. *)
Definition failure (f : file) : exn :=
  match f with
  | Unreadable msg => OSError msg
  | Undecodable => JSONDecodeError
  | Parsed Scalar => TypeError
  | Parsed _ => AttributeError
  end.

(** The rows of the frame with key [k] under [by_]. *)
Definition group_rows (by_ : flight -> option string) (k : string) (df : list flight)
  : list flight :=
  filter (fun r => Pandas.in_group k (by_ r)) df.

(** The passenger number a row adds to a sum, NA adding nothing. *)
Definition passengers_or_zero (r : flight) : Z :=
  match passengers r with Some z => z | None => 0 end.

(** Numbers small enough to be added exactly in doubles: their absolute
    values add up to less than 2^53. *)
Definition in_exact_range (l : list Z) : Prop := total (map Z.abs l) < 2 ^ 53.

(** The passenger numbers of the frame are small enough for pandas to add
    them exactly, whatever the dtype of the column: their absolute values
    add up to less than 2^53. *)
Definition passengers_in_exact_range (df : list flight) : Prop :=
  total (map (fun r => Z.abs (passengers_or_zero r)) df) < 2 ^ 53.

(** The rows of the frame that [groupby(by_)] puts in some group. *)
Definition keyed_rows (by_ : flight -> option string) (df : list flight) : list flight :=
  filter (fun r => match by_ r with Some _ => true | None => false end) df.

(** ** Sample corpora *)

Definition sample (origin destination : string) (secs pax : Z) : flight :=
  mk_flight (Val "2024-11-20"%string) (Val origin) (Val destination) (Val secs) (Val pax)
            [].

Definition file_of (rs : list flight) : file := Parsed (Array (map Obj rs)).

(** A record whose only null is the date. *)
Definition dirty_sample : flight :=
  set_none Kdate (sample "city_0" "city_1" 7200 50).

(** One clean record and one dirty record to the same destination. *)
Definition corpus_clean_and_dirty : list file :=
  [file_of [sample "city_0" "city_1" 3600 100; dirty_sample]].

Definition corpus_clean_only : list file :=
  [file_of [sample "city_0" "city_1" 3600 100]].

(** Two flights to city_2, one to city_1. *)
Definition corpus_three : list file :=
  [file_of [sample "city_0" "city_2" 3600 100; sample "city_0" "city_2" 3700 100];
   file_of [sample "city_0" "city_1" 3800 100]].

(** The same record with the passenger number absent and with it null. *)
Definition corpus_missing_key : list file :=
  [file_of [sample "city_0" "city_1" 3600 100;
            drop_key Knum_passengers (sample "city_0" "city_1" 3700 100)]].

Definition corpus_null_key : list file :=
  [file_of [sample "city_0" "city_1" 3600 100;
            set_none Knum_passengers (sample "city_0" "city_1" 3700 100)]].

(** A record with the five fields non-null and one more key, which holds
    null. *)
Definition corpus_extra_null : list file :=
  [file_of [mk_flight (Val "2024-11-20"%string) (Val "city_0"%string)
                      (Val "city_1"%string) (Val 3600) (Val 100)
                      [("remark"%string, PyNone)]]].

(** Two flights of 2^62 passengers to city_1 and a flight of 7 passengers
    to city_2. *)
Definition corpus_wrapping : list file :=
  [file_of [sample "city_0" "city_1" 3600 (2 ^ 62);
            sample "city_0" "city_1" 3600 (2 ^ 62);
            sample "city_3" "city_2" 3600 7]].

(** A valid file followed by a file that holds a JSON number. *)
Definition corpus_with_number : list file :=
  corpus_clean_only ++ [Parsed Scalar].

(** One flight from city_1 to city_2. *)
Definition corpus_one_flight : list file :=
  [file_of [sample "city_1" "city_2" 3600 100]].

(** Ten flights to city_1 with durations 100, 200, ..., 1000, out of order. *)
Definition ten_durations : list Z := [100; 200; 300; 400; 500; 600; 700; 800; 900; 1000].

Definition corpus_ten : list file :=
  [file_of (map (fun d => sample "city_0" "city_1" d 100) (rev ten_durations))].




(** Reads a decimal numeral. *)
Fixpoint decimal_value (acc : nat) (s : string) : nat :=
  match s with
  | EmptyString => acc
  | String c s' => decimal_value (10 * acc + (nat_of_ascii c - 48)) s'
  end.

(** No fault of the operating system, and a fault of [os.makedirs]. *)
Definition no_faults : faults := mk_faults None None (fun _ => None).

Definition makedirs_denied : faults :=
  mk_faults None (Some "Permission denied"%string) (fun _ => None).

(** Draws that never inject a null. *)
Definition plain_draws : draws :=
  mk_draws "2024-11-20"%string 0 1 0 0 (1 # 2) 0.

Definition plain_file_draws (i : nat) : file_draws :=
  mk_file_draws (str_of_nat i) 0 0 (fun _ => plain_draws).

(** An empty array and a record without the destination key. *)
Definition corpus_empty_array : list file := [file_of []].

Definition corpus_no_destination : list file :=
  [file_of [drop_key Kdestination_city (sample "city_0" "city_1" 3600 100)]].

(** A valid file, a file that cannot be opened, a file that does not parse. *)
Definition corpus_unreadable_second : list file :=
  corpus_clean_only ++ [Unreadable "Permission denied"; Undecodable].

(** * Properties *)

(** ** Sorting lemmas *)

Section SortingFacts.
Context {A : Type} (leb : A -> A -> bool).
Hypothesis leb_total : forall x y, leb x y = true \/ leb y x = true.
Hypothesis leb_trans : forall x y z, leb x y = true -> leb y z = true -> leb x z = true.

Let le (x y : A) : Prop := leb x y = true.

Lemma insert_perm (x : A) (l : list A) : Permutation (insert leb x l) (x :: l).
Proof.
  induction l as [|y l IH]; simpl.
  - apply Permutation_refl.
  - destruct (leb x y).
    + apply Permutation_refl.
    + apply perm_trans with (y :: x :: l).
      * now apply perm_skip.
      * apply perm_swap.
Qed.

Lemma sort_perm (l : list A) : Permutation (sort leb l) l.
Proof.
  induction l as [|x l IH]; simpl.
  - constructor.
  - apply perm_trans with (x :: sort leb l).
    + apply insert_perm.
    + now apply perm_skip.
Qed.

Lemma insert_sorted (x : A) (l : list A) :
  StronglySorted le l -> StronglySorted le (insert leb x l).
Proof.
  induction 1 as [|y l Hs IH Hall]; simpl.
  - repeat constructor.
  - destruct (leb x y) eqn:E.
    + constructor.
      * now constructor.
      * constructor; [exact E|].
        eapply Forall_impl; [|exact Hall].
        intros z Hz. unfold le in *. eapply leb_trans; eauto.
    + constructor; [exact IH|].
      assert (Hyx : le y x).
      { destruct (leb_total x y) as [H|H]; [congruence|exact H]. }
      eapply Permutation_Forall.
      * apply Permutation_sym, insert_perm.
      * now constructor.
Qed.

Lemma sort_sorted (l : list A) : StronglySorted le (sort leb l).
Proof.
  induction l as [|x l IH]; simpl.
  - constructor.
  - now apply insert_sorted.
Qed.

(** Two sorted lists with the same elements are equal when the order is
    antisymmetric. *)
Lemma sorted_perm_eq (l1 l2 : list A) :
  (forall x y, leb x y = true -> leb y x = true -> x = y) ->
  StronglySorted le l1 -> StronglySorted le l2 -> Permutation l1 l2 -> l1 = l2.
Proof.
  intros anti H1. revert l2.
  induction H1 as [|a l1 Hs1 IH Ha]; intros l2 H2 HP.
  - apply Permutation_nil in HP. now subst.
  - destruct l2 as [|b l2].
    + apply Permutation_sym, Permutation_nil in HP. discriminate.
    + inversion H2 as [|? ? Hs2 Hb]; subst.
      assert (a = b) as ->.
      { assert (Hin_a : In a (b :: l2)) by (eapply Permutation_in; [exact HP|now left]).
        assert (Hin_b : In b (a :: l1))
          by (eapply Permutation_in; [apply Permutation_sym; exact HP|now left]).
        destruct Hin_a as [->|Hin_a]; [reflexivity|].
        destruct Hin_b as [->|Hin_b]; [reflexivity|].
        rewrite Forall_forall in Ha, Hb.
        apply anti; [now apply Ha | now apply Hb]. }
      f_equal. apply IH; [exact Hs2|].
      eapply Permutation_cons_inv; exact HP.
Qed.

Lemma sort_perm_eq (l1 l2 : list A) :
  (forall x y, leb x y = true -> leb y x = true -> x = y) ->
  Permutation l1 l2 -> sort leb l1 = sort leb l2.
Proof.
  intros anti HP.
  apply sorted_perm_eq; auto using sort_sorted.
  apply perm_trans with l1; [apply sort_perm|].
  apply perm_trans with l2; [exact HP|apply Permutation_sym, sort_perm].
Qed.

Lemma sorted_app_le (l1 l2 : list A) :
  StronglySorted le (l1 ++ l2) -> forall x y, In x l1 -> In y l2 -> le x y.
Proof.
  induction l1 as [|a l1 IH]; simpl; intros Hs x y Hx Hy.
  - contradiction.
  - inversion Hs as [|? ? Hs' Hall]; subst.
    destruct Hx as [->|Hx].
    + rewrite Forall_forall in Hall. apply Hall, in_or_app. now right.
    + now apply IH.
Qed.
End SortingFacts.

(** ** Order facts on strings and numbers *)

Lemma string_compare_refl (x : string) : String.compare x x = Eq.
Proof. exact (proj2 (String_as_OT.cmp_eq x x) eq_refl). Qed.

Lemma string_leb_trans (x y z : string) :
  String.leb x y = true -> String.leb y z = true -> String.leb x z = true.
Proof.
  unfold String.leb.
  destruct (String.compare x y) eqn:Exy; try discriminate;
    destruct (String.compare y z) eqn:Eyz; try discriminate; intros _ _.
  - apply String_as_OT.cmp_eq in Exy, Eyz. subst.
    now rewrite string_compare_refl.
  - apply String_as_OT.cmp_eq in Exy. subst. now rewrite Eyz.
  - apply String_as_OT.cmp_eq in Eyz. subst. now rewrite Exy.
  - apply String_as_OT.cmp_lt in Exy, Eyz.
    pose proof (String_as_OT.lt_trans _ _ _ Exy Eyz) as H.
    apply String_as_OT.cmp_lt in H. unfold String_as_OT.cmp in H. now rewrite H.
Qed.

Lemma string_leb_ltb (x y : string) :
  String.leb x y = true -> x <> y -> String.ltb x y = true.
Proof.
  unfold String.leb, String.ltb.
  destruct (String.compare x y) eqn:E; try discriminate; intros _ Hne.
  - apply String.compare_eq_iff in E. contradiction.
  - reflexivity.
Qed.




Lemma by_count_desc_total (p q : string * nat) :
  Pandas.by_count_desc p q = true \/ Pandas.by_count_desc q p = true.
Proof. unfold Pandas.by_count_desc. rewrite !Nat.leb_le. lia. Qed.

Lemma by_count_desc_trans (p q r : string * nat) :
  Pandas.by_count_desc p q = true -> Pandas.by_count_desc q r = true ->
  Pandas.by_count_desc p r = true.
Proof. unfold Pandas.by_count_desc. rewrite !Nat.leb_le. lia. Qed.

(** ** The generator *)

Lemma choice_in {A : Type} (draw : nat) (seq : list A) (default : A) :
  seq <> [] -> In (choice draw seq default) seq.
Proof.
  intros Hne. unfold choice. apply nth_In.
  apply Nat.mod_upper_bound. destruct seq; [contradiction|discriminate].
Qed.

Lemma Qltb_lt (x y : Q) : Qltb x y = true <-> (x < y)%Q.
Proof.
  unfold Qltb. rewrite negb_true_iff. split.
  - intros H. apply Qnot_le_lt. intros Hle.
    apply Qle_bool_iff in Hle. congruence.
  - intros H. destruct (Qle_bool y x) eqn:E; [|reflexivity].
    apply Qle_bool_iff in E. exfalso. eapply Qlt_not_le; eauto.
Qed.

(** C10: a generated record carries all five keys and at most one of them
    holds null: exactly one when the uniform draw falls below [prob_null]
    (0.001), none otherwise, in which case the record is clean. *)
Theorem C10_generated_record_has_at_most_one_null (d : draws) :
  null_count (generate_flight_record d)
    = (if Qltb (draw_uniform d) prob_null then 1%nat else 0%nat)
  /\ (null_count (generate_flight_record d) <= 1)%nat
  /\ forallb (fun k => has_key k (generate_flight_record d)) all_keys = true
  /\ clean (generate_flight_record d) = negb (Qltb (draw_uniform d) prob_null).
Proof.
  unfold generate_flight_record.
  destruct (Qltb (draw_uniform d) prob_null).
  - pose proof (choice_in (draw_null_field d) all_keys Kdate) as Hin.
    destruct Hin as [<-|[<-|[<-|[<-|[<-|[]]]]]]; [discriminate|..];
      repeat split; cbn; lia.
  - repeat split; cbn; lia.
Qed.

(** ** Classification of records *)

Lemma count_dirty_objs (rs : list flight) (n : nat) :
  count_dirty (map Obj rs) n = Ok (n + List.length (filter has_none rs))%nat.
Proof.
  revert n. induction rs as [|r rs IH]; intros n; simpl.
  - f_equal. lia.
  - fold (has_none r). destruct (has_none r); rewrite IH; simpl; f_equal; lia.
Qed.

Lemma has_none_keys (r : flight) :
  has_none r = existsb (fun k => holds_null k r) all_keys || other_nulls r.
Proof.
  unfold has_none, other_nulls, values, any. rewrite !existsb_app.
  destruct r as [[| |a] [| |b] [| |c] [| |d] [| |e] o]; cbn;
    destruct (existsb is_None (map snd o)); reflexivity.
Qed.

(** C5 (as the program has it): a record is counted dirty exactly when one
    of the keys it carries, one of the five named keys or any other key,
    holds null, whichever key that is; a record with all five fields present
    and non-null is not counted dirty unless another key holds null;
    setting any key to null makes the record dirty, while removing a key
    leaves the decision to the remaining keys. *)
Theorem C5_dirty_iff_some_present_key_is_null (r : flight) :
  has_none r = existsb (fun k => holds_null k r) all_keys || other_nulls r
  /\ clean r && has_none r = clean r && other_nulls r
  /\ (forall k, has_none (set_none k r) = true)
  /\ (forall k, has_none (drop_key k r)
                = existsb (fun k' => negb (key_eqb k k') && holds_null k' r) all_keys
                  || other_nulls r)
  /\ (forall rs n, count_dirty (map Obj rs) n
                   = Ok (n + List.length (filter has_none rs))%nat).
Proof.
  split; [apply has_none_keys|].
  split.
  { rewrite has_none_keys.
    destruct r as [[| |a] [| |b] [| |c] [| |d] [| |e] o]; reflexivity. }
  split.
  { intros k. rewrite has_none_keys.
    destruct r as [da og de du pa o]. destruct k; cbn;
      repeat (rewrite ?orb_true_r; cbn); reflexivity. }
  split.
  { intros k. rewrite has_none_keys.
    destruct r as [[| |a] [| |b] [| |c] [| |d] [| |e] o]; destruct k; reflexivity. }
  apply count_dirty_objs.
Qed.

(** C5, counterexample: with the passenger number absent the record is not
    counted dirty; with an explicit null under the same key it is; and a
    record with the five fields present and non-null is counted dirty when
    one more key holds null. *)
Lemma C5_missing_key_differs_from_null :
  (exists r, process_files (Some corpus_missing_key) = Ok r /\ rep_dirty_records r = 0%nat)
  /\ (exists r, process_files (Some corpus_null_key) = Ok r /\ rep_dirty_records r = 1%nat)
  /\ (exists r, process_files (Some corpus_extra_null) = Ok r
                /\ rep_dirty_records r = 1%nat
                /\ forallb clean (frame (Some corpus_extra_null)) = true).
Proof.
  split; [|split]; eexists; (split; [vm_compute; reflexivity|]);
    try reflexivity. split; reflexivity.
Qed.

(** ** The loop over the files *)

Lemma length_list_ascii_of_string (s : string) :
  List.length (list_ascii_of_string s) = String.length s.
Proof. induction s; simpl; congruence. Qed.

Lemma dicts_map_Obj (rs : list flight) : dicts (map Obj rs) = rs.
Proof. induction rs; simpl; congruence. Qed.

Lemma passes_objs (es : list element) :
  forallb is_obj es = true -> es = map Obj (dicts es).
Proof.
  induction es as [|[r|] es IH]; simpl; intros H; try discriminate.
  - reflexivity.
  - f_equal. now apply IH.
Qed.

Lemma count_dirty_not_objs (es : list element) (n : nat) :
  forallb is_obj es = false -> count_dirty es n = Raise AttributeError.
Proof.
  revert n. induction es as [|[r|] es IH]; simpl; intros n H; try discriminate.
  - now apply IH.
  - reflexivity.
Qed.

(** A file that passes adds its records to all three components. *)
Lemma read_file_passes (st : counters) (f : file) :
  passes f = true ->
  read_file st f =
    Ok (mk_counters (total_records st + List.length (records_of f))
                    (dirty_records st + List.length (filter has_none (records_of f)))
                    (all_records st ++ records_of f)).
Proof.
  destruct f as [msg| |[es|[|k ks]|[|a s]|]]; simpl; try discriminate; intros Hp.
  - pose proof (passes_objs es Hp) as Hes.
    simpl. generalize dependent (dicts es). intros rs Hes. subst es.
    unfold read_file; simpl.
    rewrite count_dirty_objs. simpl. now rewrite dicts_map_Obj, length_map.
  - unfold read_file; simpl. now rewrite !Nat.add_0_r.
  - unfold read_file; simpl. now rewrite !Nat.add_0_r.
Qed.

(** A file that does not pass makes the body raise; the exception is an
    [OSError] only when the file cannot be opened. *)
Lemma read_file_fails (st : counters) (f : file) :
  passes f = false ->
  exists e, read_file st f = Raise e /\ (readable f = true -> is_OSError e = false).
Proof.
  destruct f as [msg| |[es|[|k ks]|[|a s]|]]; simpl; try discriminate; intros Hp;
    unfold read_file; simpl.
  - eexists; split; [reflexivity|discriminate].
  - eexists; split; [reflexivity|reflexivity].
  - rewrite count_dirty_not_objs by exact Hp. simpl.
    eexists; split; [reflexivity|reflexivity].
  - eexists; split; [reflexivity|reflexivity].
  - eexists; split; [reflexivity|reflexivity].
  - eexists; split; [reflexivity|reflexivity].
Qed.

Lemma malformed_not_passes (f : file) : malformed f = true -> passes f = false.
Proof. destruct f as [msg| |[es|[|k ks]|[|a s]|]]; simpl; congruence. Qed.

Lemma read_files_passes (files : list file) (st : counters) :
  forallb passes files = true ->
  read_files files st =
    Ok (mk_counters
          (total_records st + List.length (flat_map records_of files))
          (dirty_records st + List.length (filter has_none (flat_map records_of files)))
          (all_records st ++ flat_map records_of files)).
Proof.
  revert st. induction files as [|f files IH]; simpl; intros st H.
  - rewrite !Nat.add_0_r, app_nil_r. now destruct st.
  - apply andb_true_iff in H as [Hf Hfs].
    rewrite (read_file_passes st f Hf). simpl. rewrite (IH _ Hfs). simpl.
    rewrite filter_app, !length_app, <- app_assoc. f_equal. f_equal; lia.
Qed.

Lemma read_files_fails (files : list file) (st : counters) :
  forallb passes files = false ->
  exists e, read_files files st = Raise e
            /\ (forallb readable files = true -> is_OSError e = false).
Proof.
  revert st. induction files as [|f files IH]; simpl; intros st H; [discriminate|].
  destruct (passes f) eqn:Hf; simpl in H.
  - rewrite (read_file_passes st f Hf). simpl.
    edestruct IH as [e [He Hos]]; [exact H|]. exists e. split; [exact He|].
    intros Hr. apply andb_true_iff in Hr as [_ Hr]. auto.
  - destruct (read_file_fails st f Hf) as [e [He Hos]].
    exists e. rewrite He. split; [reflexivity|].
    intros Hr. apply andb_true_iff in Hr as [Hr _]. auto.
Qed.

(** When the loop ends, the counters are those of the frame. *)
Lemma read_files_ok (files : list file) (st : counters) :
  read_files files (mk_counters 0 0 []) = Ok st ->
  forallb passes files = true
  /\ total_records st = List.length (flat_map records_of files)
  /\ dirty_records st = List.length (filter has_none (flat_map records_of files))
  /\ all_records st = flat_map records_of files.
Proof.
  intros H. destruct (forallb passes files) eqn:Hp.
  - rewrite (read_files_passes files _ Hp) in H. inversion H; subst; simpl. auto.
  - destruct (read_files_fails files (mk_counters 0 0 []) Hp) as [e [He _]].
    congruence.
Qed.

(** A report is produced only when every file passes, and then it is the
    analysis of the frame. *)
Lemma process_files_ok (root : option (list file)) (r : report) :
  process_files root = Ok r ->
  forallb passes (os_walk root) = true
  /\ analyse (mk_counters (List.length (frame root))
                          (List.length (filter has_none (frame root)))
                          (frame root)) = Ok r.
Proof.
  unfold process_files. intros H.
  destruct (read_files (os_walk root) (mk_counters 0 0 [])) as [st| |] eqn:E;
    simpl in H; try discriminate.
  destruct (read_files_ok _ _ E) as (Hp & Ht & Hd & Ha).
  split; [exact Hp|]. destruct st as [t dd a]; simpl in *. subst. exact H.
Qed.

(** ** What a report contains *)

Lemma analyse_ok (st : counters) (r : report) :
  analyse st = Ok r ->
  rep_total_records r = total_records st
  /\ rep_dirty_records r = dirty_records st
  /\ avg_p95 r = avg_p95_table (all_records st)
  /\ loc_idxmax (passenger_sums dest (all_records st))
     = Ok (max_arrived r, passengers_arrived r)
  /\ loc_idxmax (passenger_sums orig (all_records st))
     = Ok (max_left r, passengers_left r).
Proof.
  unfold analyse.
  destruct (column Kdestination_city _ _); simpl; try discriminate.
  destruct (column Kflight_duration_secs _ _) as [durs| |]; simpl; try discriminate.
  destruct (is_numeric durs); simpl; try discriminate.
  destruct (column Knum_passengers _ _) as [pax| |]; simpl; try discriminate.
  destruct (is_numeric pax); simpl; try discriminate.
  destruct (loc_idxmax (passenger_sums dest _)) as [[ca sa]| |]; simpl; try discriminate.
  destruct (column Korigin_city _ _); simpl; try discriminate.
  destruct (loc_idxmax (passenger_sums orig _)) as [[cl sl]| |]; simpl; try discriminate.
  intros H. inversion H; subst; simpl. auto.
Qed.

Lemma report_contents (root : option (list file)) (r : report) :
  process_files root = Ok r ->
  rep_total_records r = List.length (frame root)
  /\ rep_dirty_records r = List.length (filter has_none (frame root))
  /\ avg_p95 r = avg_p95_table (frame root)
  /\ loc_idxmax (passenger_sums dest (frame root))
     = Ok (max_arrived r, passengers_arrived r)
  /\ loc_idxmax (passenger_sums orig (frame root))
     = Ok (max_left r, passengers_left r).
Proof.
  intros H. apply process_files_ok in H as [_ H].
  apply analyse_ok in H. exact H.
Qed.

(** ** Dirty records *)

(** C1, at the failing corpus: a record whose date is null is counted
    dirty and still enters the frame; it doubles the frequency of its
    destination, moves that city's average and percentile, and its
    passengers are added to the arrival and departure sums.  Without the
    dirty record the same corpus reports other aggregates. *)
Theorem C1_dirty_record_feeds_the_aggregates :
  has_none dirty_sample = true
  /\ In dirty_sample (frame (Some corpus_clean_and_dirty))
  /\ frequency "city_1" (frame (Some corpus_clean_and_dirty)) = 2%nat
  /\ durations_of "city_1" (frame (Some corpus_clean_and_dirty)) = [3600; 7200]
  /\ (exists r, process_files (Some corpus_clean_and_dirty) = Ok r
        /\ rep_total_records r = 2%nat /\ rep_dirty_records r = 1%nat
        /\ normal_table (avg_p95 r) = [("city_1"%string, Some 5400%Q, 7020%Q)]
        /\ passengers_arrived r = 150 /\ passengers_left r = 150)
  /\ (exists r, process_files (Some corpus_clean_only) = Ok r
        /\ rep_total_records r = 1%nat /\ rep_dirty_records r = 0%nat
        /\ normal_table (avg_p95 r) = [("city_1"%string, Some 3600%Q, 3600%Q)]
        /\ passengers_arrived r = 100 /\ passengers_left r = 100).
Proof.
  split; [reflexivity|].
  split; [simpl; auto|].
  split; [reflexivity|].
  split; [reflexivity|].
  split; eexists; (split; [vm_compute; reflexivity|]); repeat split.
Qed.

(** ** Counting *)

Lemma filter_partition_length {A : Type} (p : A -> bool) (l : list A) :
  List.length l = (List.length (filter p l) + List.length (filter (fun x => negb (p x)) l))%nat.
Proof.
  induction l as [|x l IH]; simpl; [reflexivity|].
  destruct (p x); simpl; lia.
Qed.

Lemma clean_is_not_has_none (r : flight) :
  forallb (fun k => has_key k r) all_keys = true -> other_nulls r = false ->
  clean r = negb (has_none r).
Proof.
  intros H Ho. rewrite has_none_keys, Ho, orb_false_r. revert H.
  destruct r as [[| |a] [| |b] [| |c] [| |d] [| |e] o]; simpl; intros H;
    try discriminate; reflexivity.
Qed.

(** C6 (as the program has it): the reported total is the reported dirty
    count plus the number of records that hold no null; when every record
    carries all five keys and no null under any other key, these are the
    clean records. *)
Theorem C6_total_is_dirty_plus_null_free (root : option (list file)) (r : report) :
  process_files root = Ok r ->
  rep_total_records r
    = (rep_dirty_records r
       + List.length (filter (fun x => negb (has_none x)) (frame root)))%nat
  /\ (all_keys_present (frame root) = true -> no_other_nulls (frame root) = true ->
      rep_total_records r
        = (rep_dirty_records r + List.length (filter clean (frame root)))%nat).
Proof.
  intros H. apply report_contents in H as (Ht & Hd & _).
  rewrite Ht, Hd. split.
  - apply filter_partition_length.
  - intros Hk Ho. rewrite (filter_partition_length has_none). f_equal.
    f_equal. apply filter_ext_in. intros x Hx.
    symmetry. apply clean_is_not_has_none.
    + unfold all_keys_present in Hk. rewrite forallb_forall in Hk. now apply Hk.
    + unfold no_other_nulls in Ho. rewrite forallb_forall in Ho.
      apply negb_true_iff. now apply Ho.
Qed.

Lemma C6_total_is_dirty_plus_null_free_witness :
  process_files (Some corpus_clean_and_dirty)
    = Ok (report_of (process_files (Some corpus_clean_and_dirty)))
  /\ all_keys_present (frame (Some corpus_clean_and_dirty)) = true
  /\ no_other_nulls (frame (Some corpus_clean_and_dirty)) = true
  /\ rep_total_records (report_of (process_files (Some corpus_clean_and_dirty)))
     = (rep_dirty_records (report_of (process_files (Some corpus_clean_and_dirty)))
        + List.length (filter clean (frame (Some corpus_clean_and_dirty))))%nat.
Proof.
  split; [vm_compute; reflexivity|].
  split; [reflexivity|]. split; [reflexivity|].
  apply (C6_total_is_dirty_plus_null_free (Some corpus_clean_and_dirty)).
  - vm_compute; reflexivity.
  - reflexivity.
  - reflexivity.
Defined.

(** C6, counterexample: a record without the passenger key is neither
    counted dirty nor clean, so the total exceeds dirty plus clean; a clean
    record with one more key holding null is counted dirty, so the total
    falls short of dirty plus clean. *)
Lemma C6_missing_key_breaks_the_balance :
  (exists r, process_files (Some corpus_missing_key) = Ok r
     /\ rep_total_records r = 2%nat
     /\ rep_dirty_records r = 0%nat
     /\ List.length (filter clean (frame (Some corpus_missing_key))) = 1%nat
     /\ rep_total_records r
        <> (rep_dirty_records r
            + List.length (filter clean (frame (Some corpus_missing_key))))%nat)
  /\ (exists r, process_files (Some corpus_extra_null) = Ok r
     /\ rep_total_records r = 1%nat
     /\ rep_dirty_records r = 1%nat
     /\ List.length (filter clean (frame (Some corpus_extra_null))) = 1%nat
     /\ rep_total_records r
        <> (rep_dirty_records r
            + List.length (filter clean (frame (Some corpus_extra_null))))%nat).
Proof.
  split; eexists; (split; [vm_compute; reflexivity|]);
    repeat split; simpl; discriminate.
Qed.

(** ** Failures *)

Lemma main_of_raise (files : list file) (e : exn) :
  process_files (Some files) = Raise e ->
  main (Ok tt) (Some files)
  = Ok (match e with OSError msg => PrintedError msg | _ => PrintedNotice end, 0).
Proof.
  unfold main. simpl. intros ->. now destruct e.
Qed.

(** ** Facts on the pandas operations *)

Lemma dropna_In {A : Type} (col : list (option A)) (x : A) :
  In x (dropna col) <-> In (Some x) col.
Proof.
  induction col as [|[a|] col IH]; simpl.
  - tauto.
  - rewrite IH. split; intros [H|H]; auto; left; congruence.
  - rewrite IH. split; [auto|intros [H|H]; [discriminate|exact H]].
Qed.

Lemma unique_In (l : list string) (x : string) : In x (unique l) <-> In x l.
Proof.
  induction l as [|y l IH]; simpl; [tauto|].
  rewrite filter_In, IH, negb_true_iff, String.eqb_neq.
  destruct (string_dec y x) as [->|Hne]; tauto.
Qed.

Lemma unique_NoDup (l : list string) : NoDup (unique l).
Proof.
  induction l as [|y l IH]; simpl; constructor.
  - rewrite filter_In, negb_true_iff, String.eqb_neq. tauto.
  - now apply NoDup_filter.
Qed.




Lemma existsb_perm {A : Type} (p : A -> bool) (l1 l2 : list A) :
  Permutation l1 l2 -> existsb p l1 = existsb p l2.
Proof.
  intros HP. destruct (existsb p l2) eqn:E.
  - apply existsb_exists in E as (x & Hin & Hx). apply existsb_exists.
    exists x. split; [|exact Hx]. eapply Permutation_in; [apply Permutation_sym|]; eauto.
  - destruct (existsb p l1) eqn:E1; [|reflexivity].
    apply existsb_exists in E1 as (x & Hin & Hx).
    assert (existsb p l2 = true) by
      (apply existsb_exists; exists x; split; [eapply Permutation_in; eauto|exact Hx]).
    congruence.
Qed.


Lemma isin_In (c : string) (labels : list string) :
  isin (Some c) labels = true <-> In c labels.
Proof.
  simpl. rewrite existsb_exists. split.
  - intros (x & Hin & Hx). apply String.eqb_eq in Hx. now subst.
  - intros Hin. exists c. split; [exact Hin|apply String.eqb_refl].
Qed.

Lemma in_group_eq (k : string) (x : option string) :
  in_group k x = true <-> x = Some k.
Proof.
  destruct x as [c|]; simpl; [|split; discriminate].
  rewrite String.eqb_eq. split; congruence.
Qed.

Lemma groupby_keys {R : Type} (by_ : R -> option string) (rows : list R) :
  map fst (groupby by_ rows) = group_keys by_ rows.
Proof. unfold groupby. rewrite map_map. simpl. apply map_id. Qed.

Lemma group_keys_In {R : Type} (by_ : R -> option string) (rows : list R) (k : string) :
  In k (group_keys by_ rows) <-> In (Some k) (map by_ rows).
Proof.
  unfold group_keys. split; intros H.
  - apply dropna_In, unique_In. eapply Permutation_in; [apply sort_perm|exact H].
  - eapply Permutation_in; [apply Permutation_sym, sort_perm|].
    apply unique_In, dropna_In, H.
Qed.

Lemma group_keys_NoDup {R : Type} (by_ : R -> option string) (rows : list R) :
  NoDup (group_keys by_ rows).
Proof.
  unfold group_keys. eapply Permutation_NoDup.
  - apply Permutation_sym, sort_perm.
  - apply unique_NoDup.
Qed.

Lemma group_keys_sorted {R : Type} (by_ : R -> option string) (rows : list R) :
  StronglySorted (fun a b => String.leb a b = true) (group_keys by_ rows).
Proof.
  unfold group_keys. apply sort_sorted.
  - apply String.leb_total.
  - apply string_leb_trans.
Qed.


(** An aggregate of a grouping, key by key. *)
Lemma groupby_agg {R B : Type} (by_ : R -> option string) (agg : list R -> B)
      (rows : list R) :
  map (fun g => (fst g, agg (snd g))) (groupby by_ rows)
  = map (fun k => (k, agg (filter (fun r => in_group k (by_ r)) rows)))
        (group_keys by_ rows).
Proof. unfold groupby, group_keys. now rewrite map_map. Qed.

Lemma StronglySorted_strict (l : list string) :
  StronglySorted (fun a b => String.leb a b = true) l -> NoDup l ->
  StronglySorted (fun a b => String.ltb a b = true) l.
Proof.
  induction 1 as [|a l Hs IH Ha]; intros Hnd; constructor;
    inversion Hnd as [|? ? Hnotin Hnd']; subst.
  - now apply IH.
  - rewrite Forall_forall in *. intros x Hx.
    apply string_leb_ltb; [now apply Ha|]. intros ->. contradiction.
Qed.

(** ** Selection of the maximum *)

Lemma idxmax_None (vals : list Z) : idxmax vals = None -> vals = [].
Proof.
  destruct vals as [|v vs]; [reflexivity|]. simpl.
  destruct (idxmax vs) as [i|]; [destruct (v <? nth i vs 0)|]; discriminate.
Qed.

(** [idxmax] points at the first occurrence of the maximum. *)
Lemma idxmax_split (vals : list Z) (i : nat) :
  idxmax vals = Some i ->
  exists pre m post,
    vals = pre ++ m :: post /\ List.length pre = i
    /\ Forall (fun v => v < m) pre /\ Forall (fun v => v <= m) post.
Proof.
  revert i. induction vals as [|v vs IH]; simpl; intros i H; [discriminate|].
  destruct (idxmax vs) as [j|] eqn:Ej.
  - destruct (IH j eq_refl) as (pre & m & post & -> & Hlen & Hpre & Hpost).
    assert (Hnth : nth j (pre ++ m :: post) 0 = m) by (subst j; apply nth_middle).
    rewrite Hnth in H. destruct (Z.ltb_spec v m) as [Hlt|Hge]; inversion H; subst i.
    + exists (v :: pre), m, post. repeat split; simpl; auto.
    + exists [], v, (pre ++ m :: post). repeat split; auto.
      apply Forall_app. split.
      * eapply Forall_impl; [|exact Hpre]. simpl. intros; lia.
      * constructor; [lia|]. eapply Forall_impl; [|exact Hpost]. simpl. intros; lia.
  - apply idxmax_None in Ej. subst vs. inversion H; subst i.
    exists [], v, []. repeat split; auto.
Qed.

Lemma filter_none {A : Type} (p : A -> bool) (l : list A) :
  (forall x, In x l -> p x = false) -> filter p l = [].
Proof.
  induction l as [|x l IH]; simpl; intros H; [reflexivity|].
  rewrite (H x) by now left. apply IH. intros y Hy. apply H. now right.
Qed.

Lemma string_leb_refl (x : string) : String.leb x x = true.
Proof. destruct (String.leb_total x x); assumption. Qed.

(** On a table with distinct, ascending city labels, the selected row is in
    the table, no row has a larger sum, and among the rows with that sum the
    selected city has the smallest identifier. *)
Lemma loc_idxmax_spec (t : list (string * Z)) (c : string) (s : Z) :
  NoDup (map fst t) ->
  StronglySorted (fun a b => String.leb a b = true) (map fst t) ->
  loc_idxmax t = Ok (c, s) ->
  In (c, s) t
  /\ forall c' s', In (c', s') t -> s' <= s /\ (s' = s -> String.leb c c' = true).
Proof.
  intros Hnd Hsorted. unfold loc_idxmax.
  destruct (idxmax (map snd t)) as [i|] eqn:Ei; [|discriminate].
  apply idxmax_split in Ei as (pre & m & post & Hv & Hlen & Hpre & Hpost).
  apply map_eq_app in Hv as (tpre & trest & -> & Hmpre & Hrest).
  apply map_eq_cons in Hrest as (row & tpost & -> & Hrow & Hmpost).
  assert (Hi : i = List.length tpre) by (subst pre i; apply length_map).
  rewrite Hi, nth_middle.
  rewrite map_app in Hnd, Hsorted. simpl in Hnd, Hsorted.
  pose proof (NoDup_remove_2 _ _ _ Hnd) as Hnotin.
  rewrite filter_app. simpl. rewrite String.eqb_refl.
  rewrite filter_none.
  2:{ intros x Hx. apply String.eqb_neq. intros Heq. apply Hnotin.
      apply in_or_app. left. rewrite <- Heq. now apply in_map. }
  simpl. intros H. inversion H; subst c s. clear H.
  split.
  - apply in_or_app. right. left. now destruct row.
  - intros c' s' Hin. apply in_app_or in Hin as [Hin|[Heq|Hin]].
    + assert (s' < snd row).
      { rewrite Hrow. rewrite Forall_forall in Hpre. apply Hpre. rewrite <- Hmpre.
        change s' with (snd (c', s')). now apply in_map. }
      split; lia.
    + subst row. simpl. split; [lia|]. intros _. apply string_leb_refl.
    + split.
      * rewrite Hrow. rewrite Forall_forall in Hpost. apply Hpost. rewrite <- Hmpost.
        change s' with (snd (c', s')). now apply in_map.
      * intros _.
        change (map fst tpre ++ fst row :: map fst tpost)
          with (map fst tpre ++ [fst row] ++ map fst tpost) in Hsorted.
        rewrite app_assoc in Hsorted.
        eapply (sorted_app_le String.leb); [exact Hsorted| |].
        -- apply in_or_app. right. now left.
        -- change c' with (fst (c', s')). now apply in_map.
Qed.

Lemma passenger_sums_keys (by_ : flight -> option string) (df : list flight) :
  map fst (passenger_sums by_ df) = group_keys by_ df.
Proof.
  unfold passenger_sums. rewrite map_map. simpl. apply groupby_keys.
Qed.

(** C7 (as the program has it): the arrival sums have one entry per city
    that occurs as a destination in the frame, the departure sums one entry
    per city that occurs as an origin; a city that occurs in one role only
    has no entry in the other table.  When the passenger numbers of the
    frame are in the range that pandas adds exactly (their absolute values
    add up to less than 2^53), the selected city is an entry of its table
    with the largest sum, the smallest identifier among equal sums; it is
    selected with sum 0 only when no entry is positive. *)
Theorem C7_passenger_sum_tables (root : option (list file)) (r : report) :
  process_files root = Ok r ->
  (forall c, In c (map fst (passenger_sums dest (frame root)))
             <-> In (Some c) (map dest (frame root)))
  /\ (forall c, In c (map fst (passenger_sums orig (frame root)))
                <-> In (Some c) (map orig (frame root)))
  /\ (passengers_in_exact_range (frame root) ->
      In (max_arrived r, passengers_arrived r) (passenger_sums dest (frame root))
      /\ (forall c s, In (c, s) (passenger_sums dest (frame root)) ->
            s <= passengers_arrived r
            /\ (s = passengers_arrived r -> String.leb (max_arrived r) c = true)
            /\ (passengers_arrived r = 0 -> s <= 0))
      /\ In (max_left r, passengers_left r) (passenger_sums orig (frame root))
      /\ (forall c s, In (c, s) (passenger_sums orig (frame root)) ->
            s <= passengers_left r
            /\ (s = passengers_left r -> String.leb (max_left r) c = true)
            /\ (passengers_left r = 0 -> s <= 0))).
Proof.
  intros H. apply report_contents in H as (_ & _ & _ & Ha & Hl).
  split; [intros c; rewrite passenger_sums_keys; apply group_keys_In|].
  split; [intros c; rewrite passenger_sums_keys; apply group_keys_In|].
  intros _.
  apply loc_idxmax_spec in Ha as [Ha1 Ha2];
    [|rewrite passenger_sums_keys; apply group_keys_NoDup
     |rewrite passenger_sums_keys; apply group_keys_sorted].
  apply loc_idxmax_spec in Hl as [Hl1 Hl2];
    [|rewrite passenger_sums_keys; apply group_keys_NoDup
     |rewrite passenger_sums_keys; apply group_keys_sorted].
  split; [exact Ha1|]. split.
  - intros c s Hin. destruct (Ha2 c s Hin) as [Hle Htie]. repeat split; auto. lia.
  - split; [exact Hl1|].
    intros c s Hin. destruct (Hl2 c s Hin) as [Hle Htie]. repeat split; auto. lia.
Qed.

Lemma C7_passenger_sum_tables_witness :
  process_files (Some corpus_one_flight)
    = Ok (report_of (process_files (Some corpus_one_flight)))
  /\ passengers_in_exact_range (frame (Some corpus_one_flight))
  /\ (In "city_1"%string (map fst (passenger_sums dest (frame (Some corpus_one_flight))))
      <-> In (Some "city_1"%string) (map dest (frame (Some corpus_one_flight))))
  /\ In (max_arrived (report_of (process_files (Some corpus_one_flight))),
         passengers_arrived (report_of (process_files (Some corpus_one_flight))))
        (passenger_sums dest (frame (Some corpus_one_flight))).
Proof.
  assert (Hrun : process_files (Some corpus_one_flight)
                 = Ok (report_of (process_files (Some corpus_one_flight))))
    by (vm_compute; reflexivity).
  assert (Hr : passengers_in_exact_range (frame (Some corpus_one_flight)))
    by (vm_compute; reflexivity).
  destruct (C7_passenger_sum_tables (Some corpus_one_flight) _ Hrun) as (Hk & _ & Hsel).
  split; [exact Hrun|]. split; [exact Hr|]. split; [apply Hk|].
  exact (proj1 (Hsel Hr)).
Defined.

(** C7, counterexample: city_1 occurs as an origin of the corpus and has
    no entry among the arrival sums; city_2 occurs as a destination and has
    no entry among the departure sums. *)
Lemma C7_origin_only_city_has_no_arrival_entry :
  In (Some "city_1"%string) (map orig (frame (Some corpus_one_flight)))
  /\ ~ In "city_1"%string (map fst (passenger_sums dest (frame (Some corpus_one_flight))))
  /\ In (Some "city_2"%string) (map dest (frame (Some corpus_one_flight)))
  /\ ~ In "city_2"%string (map fst (passenger_sums orig (frame (Some corpus_one_flight))))
  /\ exists r, process_files (Some corpus_one_flight) = Ok r.
Proof.
  split; [simpl; auto|].
  split; [vm_compute; intros [H|[]]; discriminate H|].
  split; [simpl; auto|].
  split; [vm_compute; intros [H|[]]; discriminate H|].
  eexists. vm_compute. reflexivity.
Qed.

(** ** The percentile *)

(** Unfolds a comparison of rationals into one of integers. *)
Ltac unfold_Q :=
  unfold Qeq, Qceiling, Qfloor, Qminus, Qplus, Qopp, Qmult, inject_Z;
  cbn [Qnum Qden]; rewrite ?Pos.mul_1_r, ?Z.mul_1_r.

Lemma spec_rank_floor (n : nat) :
  Qfloor (spec_rank n) = (Z.of_nat n - 1) * 95 / 100.
Proof.
  unfold spec_rank. generalize (Z.of_nat n - 1). intros m.
  unfold_Q. f_equal. lia.
Qed.

Lemma spec_rank_ceiling (n : nat) :
  Qceiling (spec_rank n)
  = (Z.of_nat n - 1) * 95 / 100 + (if (Z.of_nat n - 1) * 95 mod 100 =? 0 then 0 else 1).
Proof.
  unfold spec_rank. generalize (Z.of_nat n - 1). intros m.
  unfold_Q.
  destruct (Z.eqb_spec (m * 95 mod 100) 0) as [E|E];
    Z.div_mod_to_equations; lia.
Qed.

Lemma spec_rank_frac (n : nat) :
  (spec_rank n - inject_Z (Qfloor (spec_rank n))
   == ((Z.of_nat n - 1) * 95 mod 100) # 100)%Q.
Proof.
  rewrite spec_rank_floor.
  unfold spec_rank. generalize (Z.of_nat n - 1). intros m.
  unfold_Q.
  Z.div_mod_to_equations. lia.
Qed.

Lemma percentile_spec (a : list Z) :
  a <> [] -> (Numpy.percentile a 95 == spec_p95 a)%Q.
Proof.
  intros Hne. unfold Numpy.percentile, spec_p95.
  rewrite spec_rank_frac, spec_rank_ceiling, spec_rank_floor.
  set (n := Z.of_nat (List.length a)).
  assert (Hn : 1 <= n) by (subst n; destruct a; [contradiction|simpl; lia]).
  set (v := (n - 1) * 95).
  set (arr := sort Z.leb a).
  destruct (Z.eqb_spec (v mod 100) 0) as [E|E].
  - rewrite E, Z.add_0_r.
    generalize (nth (Z.to_nat (v / 100)) arr 0).
    generalize (nth (Z.to_nat (Z.min (v / 100 + 1) (n - 1))) arr 0).
    intros hi lo. unfold_Q. lia.
  - assert (Hnext : Z.min (v / 100 + 1) (n - 1) = v / 100 + 1).
    { apply Z.min_l. subst v. Z.div_mod_to_equations. lia. }
    rewrite Hnext.
    generalize (nth (Z.to_nat (v / 100)) arr 0).
    generalize (nth (Z.to_nat (v / 100 + 1)) arr 0).
    generalize (v mod 100).
    intros g hi lo. unfold_Q. lia.
Qed.


Lemma percentile_single (d : Z) : (Numpy.percentile [d] 95 == inject_Z d)%Q.
Proof. unfold Numpy.percentile. simpl. unfold_Q. lia. Qed.

Lemma filter_group_of_selected (c : string) (labels : list string) (df : list flight) :
  In c labels ->
  filter (fun r => in_group c (dest r)) (filter (fun r => isin (dest r) labels) df)
  = filter (fun r => in_group c (dest r)) df.
Proof.
  intros Hin. induction df as [|x df IH]; simpl; [reflexivity|].
  destruct (isin (dest x) labels) eqn:Ei; simpl.
  - now rewrite IH.
  - destruct (in_group c (dest x)) eqn:Eg; [|exact IH].
    apply in_group_eq in Eg. rewrite Eg in Ei.
    apply isin_In in Hin. congruence.
Qed.

(** A row of the reported table belongs to a selected city and aggregates
    the durations of all rows of the frame with that destination. *)
Lemma table_row (df : list flight) (c : string) (avg : option Q) (p : Q) :
  In (c, avg, p) (avg_p95_table df) ->
  In c (top_25_cities df)
  /\ avg = mean (map duration (filter (fun r => in_group c (dest r)) df))
  /\ p = p95 (map duration (filter (fun r => in_group c (dest r)) df)).
Proof.
  unfold avg_p95_table. intros H.
  apply in_map_iff in H as ([k g] & Hrow & Hg). simpl in Hrow.
  assert (Hk : In k (group_keys dest (df_top_25 df))).
  { rewrite <- groupby_keys. change k with (fst (k, g)). now apply in_map. }
  unfold groupby in Hg. apply in_map_iff in Hg as (k' & Hkg & _).
  inversion Hkg; subst k' g. clear Hkg. inversion Hrow; subst c avg p. clear Hrow.
  assert (Hsel : In k (top_25_cities df)).
  { apply group_keys_In in Hk. apply in_map_iff in Hk as (x & Hx & Hin).
    unfold df_top_25 in Hin. apply filter_In in Hin as [_ Hisin].
    rewrite Hx in Hisin. now apply isin_In. }
  unfold df_top_25. rewrite (filter_group_of_selected k _ df Hsel). auto.
Qed.

(** C3, at the failing corpus: city_1 has a single clean record, of
    duration 3600, for which the interpolated rank of the collection [3600]
    is 3600; the dirty record with the same destination is in the frame, so
    the percentile is taken of the durations 3600 and 7200 and the p95
    reported for city_1 is above 3600.  The same corpus without the dirty
    record reports 3600. *)
Theorem C3_dirty_duration_moves_the_p95 :
  map flight_duration_secs
      (filter clean (group_rows dest "city_1" (frame (Some corpus_clean_and_dirty))))
  = [Val 3600]
  /\ (spec_p95 [3600%Z] == 3600)%Q
  /\ durations_of "city_1" (frame (Some corpus_clean_and_dirty)) = [3600; 7200]
  /\ (exists r avg p, process_files (Some corpus_clean_and_dirty) = Ok r
        /\ avg_p95 r = [("city_1"%string, avg, p)]
        /\ (3600 < p)%Q /\ ~ (p == 3600)%Q)
  /\ (exists r avg p, process_files (Some corpus_clean_only) = Ok r
        /\ avg_p95 r = [("city_1"%string, avg, p)]
        /\ (p == 3600)%Q).
Proof.
  split; [reflexivity|].
  split; [vm_compute; reflexivity|].
  split; [reflexivity|].
  split.
  - do 3 eexists. split; [vm_compute; reflexivity|].
    split; [reflexivity|]. split; [vm_compute; reflexivity|].
    intros H. vm_compute in H. discriminate H.
  - do 3 eexists. split; [vm_compute; reflexivity|].
    split; [reflexivity|]. vm_compute. reflexivity.
Qed.

(** ** The selection of the 25 most frequent destinations *)

Lemma top_25_cities_ranked (df : list flight) :
  top_25_cities df = firstn 25 (map fst (ranked df)).
Proof. unfold top_25_cities, index, nlargest, ranked. symmetry. apply firstn_map. Qed.

Lemma ranked_perm (df : list flight) :
  Permutation (ranked df) (map (fun k => (k, frequency k df)) (destinations df)).
Proof.
  unfold ranked, value_counts.
  eapply perm_trans; [apply sort_perm|]. apply sort_perm.
Qed.

Lemma ranked_sorted (df : list flight) :
  StronglySorted (fun p q => by_count_desc p q = true) (ranked df).
Proof.
  apply sort_sorted; [apply by_count_desc_total|apply by_count_desc_trans].
Qed.

Lemma ranked_keys (df : list flight) :
  Permutation (map fst (ranked df)) (destinations df).
Proof.
  eapply perm_trans; [apply Permutation_map, ranked_perm|].
  rewrite map_map. simpl. rewrite map_id. apply Permutation_refl.
Qed.

Lemma ranked_In (df : list flight) (k : string) (n : nat) :
  In (k, n) (ranked df) -> n = frequency k df.
Proof.
  intros H. eapply Permutation_in in H; [|apply ranked_perm].
  apply in_map_iff in H as (k' & Heq & _). now inversion Heq.
Qed.

Lemma destinations_In (df : list flight) (c : string) :
  In c (destinations df) <-> In (Some c) (map dest df).
Proof. unfold destinations. now rewrite unique_In, dropna_In. Qed.

Lemma NoDup_firstn {A : Type} (n : nat) (l : list A) : NoDup l -> NoDup (firstn n l).
Proof.
  intros H. rewrite <- (firstn_skipn n l) in H. now apply NoDup_app_remove_r in H.
Qed.

Lemma In_firstn {A : Type} (n : nat) (l : list A) (x : A) : In x (firstn n l) -> In x l.
Proof.
  intros H. rewrite <- (firstn_skipn n l). apply in_or_app. now left.
Qed.

Lemma top_25_cities_NoDup (df : list flight) : NoDup (top_25_cities df).
Proof.
  rewrite top_25_cities_ranked. apply NoDup_firstn.
  eapply Permutation_NoDup; [apply Permutation_sym, ranked_keys|apply unique_NoDup].
Qed.

Lemma top_25_cities_are_destinations (df : list flight) (c : string) :
  In c (top_25_cities df) -> In c (destinations df).
Proof.
  rewrite top_25_cities_ranked. intros H. apply In_firstn in H.
  eapply Permutation_in; [apply ranked_keys|exact H].
Qed.

Lemma top_25_cities_length (df : list flight) :
  List.length (top_25_cities df) = Nat.min 25 (List.length (destinations df)).
Proof.
  rewrite top_25_cities_ranked, length_firstn.
  now rewrite (Permutation_length (ranked_keys df)).
Qed.

(** No city outside the selection is more frequent than a selected one. *)
Lemma top_25_cities_dominate (df : list flight) (c c' : string) :
  In c (top_25_cities df) -> In c' (destinations df) -> ~ In c' (top_25_cities df) ->
  (frequency c' df <= frequency c df)%nat.
Proof.
  unfold top_25_cities, index, nlargest. fold (ranked df).
  intros Hc Hc' Hout.
  apply in_map_iff in Hc as ([k n] & Hk & Hin). simpl in Hk. subst k.
  assert (Hc'' : In c' (map fst (ranked df)))
    by (eapply Permutation_in; [apply Permutation_sym, ranked_keys|exact Hc']).
  apply in_map_iff in Hc'' as ([k' n'] & Hk' & Hin'). simpl in Hk'. subst k'.
  rewrite <- (firstn_skipn 25 (ranked df)) in Hin'.
  apply in_app_or in Hin' as [Hin'|Hin'].
  - exfalso. apply Hout. change c' with (fst (c', n')). now apply in_map.
  - pose proof (ranked_sorted df) as Hs.
    rewrite <- (firstn_skipn 25 (ranked df)) in Hs.
    pose proof (sorted_app_le by_count_desc _ _ Hs _ _ Hin Hin') as Hle.
    unfold by_count_desc in Hle. simpl in Hle. apply Nat.leb_le in Hle.
    rewrite <- (ranked_In df c n), <- (ranked_In df c' n'); auto.
    + rewrite <- (firstn_skipn 25 (ranked df)). apply in_or_app. now right.
    + now apply In_firstn in Hin.
Qed.

Lemma table_cities_keys (df : list flight) :
  table_cities (avg_p95_table df) = group_keys dest (df_top_25 df).
Proof.
  unfold table_cities, avg_p95_table. rewrite map_map. simpl. apply groupby_keys.
Qed.

Lemma df_top_25_keys (df : list flight) (k : string) :
  In k (group_keys dest (df_top_25 df)) <-> In k (top_25_cities df).
Proof.
  rewrite group_keys_In. unfold df_top_25. split.
  - intros H. apply in_map_iff in H as (x & Hx & Hin).
    apply filter_In in Hin as [_ Hisin]. rewrite Hx in Hisin. now apply isin_In.
  - intros H. pose proof (top_25_cities_are_destinations df k H) as Hd.
    apply destinations_In in Hd. apply in_map_iff in Hd as (x & Hx & Hin).
    apply in_map_iff. exists x. split; [exact Hx|].
    apply filter_In. split; [exact Hin|]. rewrite Hx. now apply isin_In.
Qed.

(** The table lists the selected cities in ascending order of identifier. *)
Lemma table_cities_sorted_selection (df : list flight) :
  table_cities (avg_p95_table df) = sort String.leb (top_25_cities df).
Proof.
  rewrite table_cities_keys.
  apply (sorted_perm_eq String.leb).
  - apply String.leb_antisym.
  - apply group_keys_sorted.
  - apply sort_sorted; [apply String.leb_total|apply string_leb_trans].
  - apply perm_trans with (top_25_cities df); [|apply Permutation_sym, sort_perm].
    apply NoDup_Permutation.
    + apply group_keys_NoDup.
    + apply top_25_cities_NoDup.
    + apply df_top_25_keys.
Qed.

(** C2 (as the program has it): the table has min(25, number of distinct
    destination cities of the frame) rows, one per selected city; no city
    left out is more frequent in the frame than a selected city; the rows
    are in ascending order of city identifier, not in ranking order. *)
Theorem C2_top_25_table (root : option (list file)) (r : report) :
  process_files root = Ok r ->
  List.length (avg_p95 r) = Nat.min 25 (List.length (destinations (frame root)))
  /\ table_cities (avg_p95 r) = sort String.leb (top_25_cities (frame root))
  /\ StronglySorted (fun a b => String.ltb a b = true) (table_cities (avg_p95 r))
  /\ (forall c c', In c (table_cities (avg_p95 r)) ->
                   In c' (destinations (frame root)) ->
                   ~ In c' (table_cities (avg_p95 r)) ->
                   (frequency c' (frame root) <= frequency c (frame root))%nat).
Proof.
  intros H. apply report_contents in H as (_ & _ & Ht & _). rewrite Ht.
  split.
  - rewrite <- top_25_cities_length, <- (length_map (fun row => fst (fst row))).
    fold (table_cities (avg_p95_table (frame root))).
    rewrite table_cities_sorted_selection. apply Permutation_length, sort_perm.
  - split; [apply table_cities_sorted_selection|]. split.
    + rewrite table_cities_keys. apply StronglySorted_strict.
      * apply group_keys_sorted.
      * apply group_keys_NoDup.
    + intros c c' Hc Hc' Hout. rewrite table_cities_keys in Hc, Hout.
      rewrite df_top_25_keys in Hc, Hout. now apply top_25_cities_dominate.
Qed.

Lemma C2_top_25_table_witness :
  process_files (Some corpus_three) = Ok (report_of (process_files (Some corpus_three)))
  /\ List.length (avg_p95 (report_of (process_files (Some corpus_three))))
     = Nat.min 25 (List.length (destinations (frame (Some corpus_three))))
  /\ table_cities (avg_p95 (report_of (process_files (Some corpus_three))))
     = sort String.leb (top_25_cities (frame (Some corpus_three))).
Proof.
  split; [vm_compute; reflexivity|].
  pose proof (C2_top_25_table (Some corpus_three)
                (report_of (process_files (Some corpus_three)))) as H.
  destruct H as (H1 & H2 & _); [vm_compute; reflexivity|].
  split; [exact H1|exact H2].
Defined.

(** C2, counterexample: with two clean flights to city_2 and one to city_1
    the ranking puts city_2 first; the reported table starts with city_1. *)
Lemma C2_table_is_not_in_ranking_order :
  spec_top_25 (frame (Some corpus_three)) = ["city_2"%string; "city_1"%string]
  /\ exists r, process_files (Some corpus_three) = Ok r
       /\ table_cities (avg_p95 r) = ["city_1"%string; "city_2"%string]
       /\ table_cities (avg_p95 r) <> spec_top_25 (frame (Some corpus_three)).
Proof.
  split; [reflexivity|].
  eexists. split; [vm_compute; reflexivity|].
  split; [reflexivity|]. vm_compute. discriminate.
Qed.

(** ** Order of the files *)












(** With at most 25 destination cities nothing is cut. *)
Lemma no_tie_when_at_most_25 (df : list flight) :
  (List.length (destinations df) <= 25)%nat -> no_tie_at_cut df.
Proof.
  intros Hlen c c' _ Hc' Hout. exfalso. apply Hout.
  rewrite top_25_cities_ranked, firstn_all2.
  - eapply Permutation_in; [apply Permutation_sym, ranked_keys|exact Hc'].
  - now rewrite (Permutation_length (ranked_keys df)).
Qed.










Lemma column_check_perm {A : Type} (k : key) (get : flight -> field A)
      (df1 df2 : list flight) :
  Permutation df1 df2 ->
  (_ <- column k get df1 ;; Ok tt) = (_ <- column k get df2 ;; Ok tt).
Proof.
  intros HP. unfold column. rewrite (existsb_perm _ _ _ HP).
  now destruct (existsb (has_key k) df2).
Qed.







(** * Further properties of the analysis *)

(** ** When a report is printed *)

Lemma is_numeric_has_value (get : flight -> option Z) (df : list flight) :
  is_numeric (map get df) = has_value get df.
Proof.
  unfold is_numeric, has_value. induction df as [|x df IH]; simpl; [reflexivity|].
  now rewrite IH.
Qed.

Lemma has_value_In {A : Type} (get : flight -> option A) (df : list flight) :
  has_value get df = true <-> exists a, In (Some a) (map get df).
Proof.
  unfold has_value. rewrite existsb_exists. split.
  - intros (x & Hin & Hx). destruct (get x) as [a|] eqn:E; [|discriminate].
    exists a. rewrite <- E. now apply in_map.
  - intros (a & Hin). apply in_map_iff in Hin as (x & Hx & Hin).
    exists x. split; [exact Hin|]. now rewrite Hx.
Qed.

Lemma has_value_has_key_dest (df : list flight) :
  has_value dest df = true -> existsb (has_key Kdestination_city) df = true.
Proof.
  unfold has_value. rewrite !existsb_exists. intros (x & Hin & Hx).
  exists x. split; [exact Hin|]. unfold dest in Hx. simpl.
  now destruct (destination_city x).
Qed.

Lemma has_value_has_key_orig (df : list flight) :
  has_value orig df = true -> existsb (has_key Korigin_city) df = true.
Proof.
  unfold has_value. rewrite !existsb_exists. intros (x & Hin & Hx).
  exists x. split; [exact Hin|]. unfold orig in Hx. simpl.
  now destruct (origin_city x).
Qed.

Lemma has_value_has_key_duration (df : list flight) :
  has_value duration df = true -> existsb (has_key Kflight_duration_secs) df = true.
Proof.
  unfold has_value. rewrite !existsb_exists. intros (x & Hin & Hx).
  exists x. split; [exact Hin|]. unfold duration in Hx. simpl.
  now destruct (flight_duration_secs x).
Qed.

Lemma has_value_has_key_passengers (df : list flight) :
  has_value passengers df = true -> existsb (has_key Knum_passengers) df = true.
Proof.
  unfold has_value. rewrite !existsb_exists. intros (x & Hin & Hx).
  exists x. split; [exact Hin|]. unfold passengers in Hx. simpl.
  now destruct (num_passengers x).
Qed.

Lemma passenger_sums_nil (by_ : flight -> option string) (df : list flight) :
  passenger_sums by_ df = [] <-> has_value by_ df = false.
Proof.
  split.
  - intros H. destruct (has_value by_ df) eqn:E; [|reflexivity].
    apply has_value_In in E as (k & Hk). apply group_keys_In in Hk.
    rewrite <- passenger_sums_keys, H in Hk. contradiction.
  - intros H. destruct (passenger_sums by_ df) as [|[k s] t] eqn:E; [reflexivity|].
    assert (Hk : In k (group_keys by_ df))
      by (rewrite <- passenger_sums_keys, E; now left).
    apply group_keys_In in Hk.
    assert (has_value by_ df = true) by (apply has_value_In; eauto). congruence.
Qed.

(** The selection raises on an empty table only. *)
Lemma loc_idxmax_ok (t : list (string * Z)) :
  t <> [] -> exists c s, loc_idxmax t = Ok (c, s).
Proof.
  intros Hne. unfold loc_idxmax.
  destruct (idxmax (map snd t)) as [i|] eqn:Ei.
  - apply idxmax_split in Ei as (pre & m & post & Hv & Hlen & _).
    apply map_eq_app in Hv as (tpre & trest & -> & Hmpre & Hrest).
    apply map_eq_cons in Hrest as (row & tpost & -> & _ & _).
    assert (Hi : i = List.length tpre) by (subst pre i; apply length_map).
    rewrite Hi, nth_middle.
    destruct (filter _ (tpre ++ row :: tpost)) as [|row' l] eqn:Ef.
    + assert (Hin : In row (filter (fun r => String.eqb (fst r) (fst row))
                                   (tpre ++ row :: tpost))).
      { apply filter_In. split; [apply in_or_app; right; now left|].
        apply String.eqb_refl. }
      rewrite Ef in Hin. contradiction.
    + eauto.
  - apply idxmax_None in Ei. destruct t; [contradiction|discriminate].
Qed.

Lemma loc_idxmax_nil : loc_idxmax [] = Raise ValueError.
Proof. reflexivity. Qed.

(** In the embedding the analysis of a frame ends in a report exactly when
    each of the four columns it reads holds a value. *)
Lemma analyse_ok_iff (t d : nat) (df : list flight) :
  (exists r, analyse (mk_counters t d df) = Ok r)
  <-> has_value dest df = true /\ has_value duration df = true
      /\ has_value passengers df = true /\ has_value orig df = true.
Proof.
  unfold analyse, column. simpl all_records.
  split.
  - intros [r H].
    destruct (existsb (has_key Kdestination_city) df); simpl in H; [|discriminate].
    destruct (existsb (has_key Kflight_duration_secs) df); simpl in H; [|discriminate].
    rewrite (is_numeric_has_value duration) in H.
    destruct (has_value duration df) eqn:Hd; simpl in H; [|discriminate].
    destruct (existsb (has_key Knum_passengers) df); simpl in H; [|discriminate].
    rewrite (is_numeric_has_value passengers) in H.
    destruct (has_value passengers df) eqn:Hp; simpl in H; [|discriminate].
    destruct (loc_idxmax (passenger_sums dest df)) as [a| |] eqn:Ha;
      simpl in H; try discriminate.
    destruct (existsb (has_key Korigin_city) df); simpl in H; [|discriminate].
    destruct (loc_idxmax (passenger_sums orig df)) as [l| |] eqn:Hl;
      simpl in H; try discriminate.
    repeat split.
    + destruct (has_value dest df) eqn:E; [reflexivity|].
      apply passenger_sums_nil in E. rewrite E in Ha. discriminate.
    + destruct (has_value orig df) eqn:E; [reflexivity|].
      apply passenger_sums_nil in E. rewrite E in Hl. discriminate.
  - intros (Hdest & Hdur & Hpax & Horig).
    rewrite (has_value_has_key_dest df Hdest). simpl.
    rewrite (has_value_has_key_duration df Hdur). simpl.
    rewrite (is_numeric_has_value duration), Hdur. simpl.
    rewrite (has_value_has_key_passengers df Hpax). simpl.
    rewrite (is_numeric_has_value passengers), Hpax. simpl.
    destruct (loc_idxmax_ok (passenger_sums dest df)) as (ca & sa & Ha).
    { intros E. apply passenger_sums_nil in E. congruence. }
    destruct (loc_idxmax_ok (passenger_sums orig df)) as (cl & sl & Hl).
    { intros E. apply passenger_sums_nil in E. congruence. }
    rewrite Ha. simpl. rewrite (has_value_has_key_orig df Horig). simpl.
    rewrite Hl. simpl. eauto.
Qed.

Lemma process_files_reports (root : option (list file)) :
  forallb passes (os_walk root) = true ->
  has_value dest (frame root) = true -> has_value duration (frame root) = true ->
  has_value passengers (frame root) = true -> has_value orig (frame root) = true ->
  exists r, process_files root = Ok r.
Proof.
  intros Hp Hd Hu Hx Ho.
  destruct (proj2 (analyse_ok_iff (List.length (frame root))
                     (List.length (filter has_none (frame root))) (frame root)))
    as [r Hr]; [auto|].
  exists r. unfold process_files. rewrite (read_files_passes _ _ Hp). simpl. exact Hr.
Qed.

Lemma process_files_columns (root : option (list file)) (r : report) :
  process_files root = Ok r ->
  has_value dest (frame root) = true /\ has_value duration (frame root) = true
  /\ has_value passengers (frame root) = true /\ has_value orig (frame root) = true.
Proof.
  intros H. apply process_files_ok in H as [_ Ha].
  apply (analyse_ok_iff (List.length (frame root))
           (List.length (filter has_none (frame root))) (frame root)). eauto.
Qed.



(** ** Which exception ends the run *)

(** X2: when every file gets through the loop, the run ends in
    [KeyError('destination_city')] exactly when no record carries that key,
    which includes the corpus without any record; whatever key a [KeyError]
    of the run names, no record of the corpus carries it. *)
Theorem key_error_names_an_absent_key (root : option (list file)) :
  forallb passes (os_walk root) = true ->
  (process_files root = Raise (KeyError "destination_city")
   <-> existsb (has_key Kdestination_city) (frame root) = false)
  /\ (frame root = [] -> process_files root = Raise (KeyError "destination_city"))
  /\ (forall k, process_files root = Raise (KeyError (key_name k)) ->
                existsb (has_key k) (frame root) = false).
Proof.
  intros Hp.
  assert (Hrun : process_files root
                 = analyse (mk_counters (List.length (frame root))
                              (List.length (filter has_none (frame root))) (frame root))).
  { unfold process_files. now rewrite (read_files_passes _ _ Hp). }
  rewrite Hrun. clear Hrun.
  generalize (List.length (frame root)) (List.length (filter has_none (frame root))).
  generalize (frame root). intros df t d.
  assert (Hall : forall k, analyse (mk_counters t d df) = Raise (KeyError (key_name k)) ->
                           existsb (has_key k) df = false).
  { intros k. unfold analyse, column. simpl all_records.
    destruct (existsb (has_key Kdestination_city) df) eqn:E1; simpl;
      [|destruct k; intros H; try discriminate H; exact E1].
    destruct (existsb (has_key Kflight_duration_secs) df) eqn:E2; simpl;
      [|destruct k; intros H; try discriminate H; exact E2].
    destruct (is_numeric _); simpl; [|discriminate].
    destruct (existsb (has_key Knum_passengers) df) eqn:E3; simpl;
      [|destruct k; intros H; try discriminate H; exact E3].
    destruct (is_numeric _); simpl; [|discriminate].
    destruct (loc_idxmax (passenger_sums dest df)) as [a| |] eqn:Ha; simpl;
      try discriminate.
    { destruct (existsb (has_key Korigin_city) df) eqn:E4; simpl;
        [|destruct k; intros H; try discriminate H; exact E4].
      destruct (loc_idxmax (passenger_sums orig df)) as [l| |] eqn:Hl; simpl;
        try discriminate.
      unfold loc_idxmax in Hl. intros H. inversion H; subst e.
      destruct (idxmax _); [|discriminate]. destruct (filter _ _); discriminate. }
    unfold loc_idxmax in Ha. intros H. inversion H; subst e.
    destruct (idxmax _); [|discriminate]. destruct (filter _ _); discriminate. }
  assert (Hdest : existsb (has_key Kdestination_city) df = false ->
                  analyse (mk_counters t d df) = Raise (KeyError "destination_city")).
  { intros E. unfold analyse, column. simpl all_records. now rewrite E. }
  split; [split; [apply (Hall Kdestination_city)|exact Hdest]|].
  split; [intros ->; reflexivity|exact Hall].
Qed.

Lemma key_error_names_an_absent_key_witness :
  forallb passes (os_walk (Some corpus_no_destination)) = true
  /\ (process_files (Some corpus_no_destination) = Raise (KeyError "destination_city")
      <-> existsb (has_key Kdestination_city) (frame (Some corpus_no_destination)) = false).
Proof.
  split; [reflexivity|].
  apply (key_error_names_an_absent_key (Some corpus_no_destination)). reflexivity.
Defined.

Lemma read_file_failure (st : counters) (f : file) :
  passes f = false -> read_file st f = Raise (failure f).
Proof.
  destruct f as [msg| |[es|[|k ks]|[|a s]|]]; simpl; try discriminate; intros Hp;
    unfold read_file; simpl; try reflexivity.
  now rewrite count_dirty_not_objs.
Qed.

Lemma read_files_first_failure (pre post : list file) (f : file) (st : counters) :
  forallb passes pre = true -> passes f = false ->
  read_files (pre ++ f :: post) st = Raise (failure f).
Proof.
  revert st. induction pre as [|g pre IH]; simpl; intros st Hpre Hf.
  - now rewrite (read_file_failure st f Hf).
  - apply andb_true_iff in Hpre as [Hg Hpre].
    rewrite (read_file_passes st g Hg). simpl. now apply IH.
Qed.

Lemma first_not_passing (files : list file) :
  forallb passes files = false ->
  exists pre f post,
    files = pre ++ f :: post /\ forallb passes pre = true /\ passes f = false.
Proof.
  induction files as [|g files IH]; simpl; intros H; [discriminate|].
  destruct (passes g) eqn:Hg; simpl in H.
  - destruct (IH H) as (pre & f & post & -> & Hpre & Hf).
    exists (g :: pre), f, post. simpl. rewrite Hg, Hpre. auto.
  - exists [], g, files. auto.
Qed.

(** C4 (as the program has it): on a corpus with a file that holds no JSON
    array (undecodable text, a number, boolean or null, a non-empty object
    or string) the analysis raises at the first file in walk order that its
    loop does not get through, with the exception of that file, and returns
    no report: nothing is counted or reported, no warning is recorded. *)
Theorem C4_malformed_file_aborts_the_run (files : list file) :
  existsb malformed files = true ->
  exists pre f post,
    files = pre ++ f :: post
    /\ forallb passes pre = true /\ passes f = false
    /\ process_files (Some files) = Raise (failure f)
    /\ (forall r, process_files (Some files) <> Ok r).
Proof.
  intros Hm.
  assert (Hp : forallb passes files = false).
  { apply existsb_exists in Hm as (f & Hin & Hf).
    destruct (forallb passes files) eqn:E; [|reflexivity].
    rewrite forallb_forall in E. apply E in Hin.
    apply malformed_not_passes in Hf. congruence. }
  destruct (first_not_passing files Hp) as (pre & f & post & -> & Hpre & Hf).
  assert (Hrun : process_files (Some (pre ++ f :: post)) = Raise (failure f)).
  { unfold process_files. simpl os_walk.
    now rewrite (read_files_first_failure pre post f _ Hpre Hf). }
  exists pre, f, post. repeat split; auto.
  intros r H. rewrite Hrun in H. discriminate H.
Qed.

Lemma C4_malformed_file_aborts_the_run_witness :
  existsb malformed corpus_with_number = true
  /\ exists pre f post,
       corpus_with_number = pre ++ f :: post
       /\ process_files (Some corpus_with_number) = Raise (failure f).
Proof.
  split; [reflexivity|].
  destruct (C4_malformed_file_aborts_the_run corpus_with_number eq_refl)
    as (pre & f & post & Hsplit & _ & _ & Hrun & _).
  exists pre, f, post. split; [exact Hsplit|exact Hrun].
Defined.

(** C4, counterexample: a valid file followed by a file holding a JSON
    number: the analysis raises [TypeError] at the second file and no
    report is produced. *)
Lemma C4_malformed_file_prints_no_report :
  corpus_with_number = corpus_clean_only ++ [Parsed Scalar]
  /\ forallb passes corpus_clean_only = true
  /\ process_files (Some corpus_with_number) = Raise TypeError
  /\ ~ (exists r, process_files (Some corpus_with_number) = Ok r).
Proof.
  split; [reflexivity|]. split; [reflexivity|]. split; [reflexivity|].
  intros (r & H). vm_compute in H. discriminate H.
Qed.

(** X3: the first file in walk order that the loop does not get through
    decides how the run ends, whatever the files after it hold: the run
    raises the exception of that file ([OSError] when it cannot be opened,
    [JSONDecodeError] when it does not parse, [TypeError] on a number,
    boolean or null, [AttributeError] on an element that is not an object),
    and [main] prints the message of the [OSError] or else its fixed
    notice, with exit status 0. *)
Theorem first_failing_file_decides (pre post : list file) (f : file) :
  forallb passes pre = true -> passes f = false ->
  process_files (Some (pre ++ f :: post)) = Raise (failure f)
  /\ main (Ok tt) (Some (pre ++ f :: post))
     = Ok (match f with
           | Unreadable msg => PrintedError msg
           | _ => PrintedNotice
           end, 0).
Proof.
  intros Hpre Hf.
  assert (Hrun : process_files (Some (pre ++ f :: post)) = Raise (failure f)).
  { unfold process_files. simpl os_walk.
    now rewrite (read_files_first_failure pre post f _ Hpre Hf). }
  split; [exact Hrun|].
  rewrite (main_of_raise _ _ Hrun).
  destruct f as [msg| |[es|ks|s|]]; reflexivity.
Qed.

Lemma first_failing_file_decides_witness :
  forallb passes corpus_clean_only = true
  /\ passes (Unreadable "Permission denied") = false
  /\ process_files (Some corpus_unreadable_second) = Raise (OSError "Permission denied")
  /\ main (Ok tt) (Some corpus_unreadable_second)
     = Ok (PrintedError "Permission denied", 0).
Proof.
  split; [reflexivity|]. split; [reflexivity|].
  apply (first_failing_file_decides corpus_clean_only [Undecodable]
           (Unreadable "Permission denied")); reflexivity.
Defined.

(** ** Shape of a report *)

Lemma avg_p95_table_length (df : list flight) :
  List.length (avg_p95_table df) = Nat.min 25 (List.length (destinations df)).
Proof.
  rewrite <- top_25_cities_length, <- (length_map (fun row => fst (fst row))).
  fold (table_cities (avg_p95_table df)).
  rewrite table_cities_sorted_selection. apply Permutation_length, sort_perm.
Qed.

Lemma has_value_destinations (df : list flight) :
  has_value dest df = true -> destinations df <> [].
Proof.
  intros H E. apply has_value_In in H as (k & Hk).
  apply destinations_In in Hk. rewrite E in Hk. contradiction.
Qed.

(** X9: a printed report counts at least one record and no more dirty
    records than records; its table has at least one and at most 25 rows,
    all for different cities. *)
Theorem report_shape (root : option (list file)) (r : report) :
  process_files root = Ok r ->
  (1 <= rep_total_records r)%nat
  /\ (rep_dirty_records r <= rep_total_records r)%nat
  /\ (1 <= List.length (avg_p95 r) <= 25)%nat
  /\ NoDup (table_cities (avg_p95 r)).
Proof.
  intros H.
  pose proof (process_files_columns root r H) as (Hd & _).
  apply report_contents in H as (Ht & Hdirty & Htab & _).
  rewrite Ht, Hdirty, Htab.
  pose proof (has_value_destinations _ Hd) as Hne.
  split.
  - destruct (frame root); [discriminate Hd|simpl; lia].
  - split.
    + rewrite (filter_partition_length has_none (frame root)). lia.
    + split.
      * rewrite avg_p95_table_length.
        destruct (destinations (frame root)); [contradiction|simpl List.length; lia].
      * rewrite table_cities_keys. apply group_keys_NoDup.
Qed.

Lemma report_shape_witness :
  process_files (Some corpus_three) = Ok (report_of (process_files (Some corpus_three)))
  /\ (1 <= List.length (avg_p95 (report_of (process_files (Some corpus_three)))) <= 25)%nat.
Proof.
  split; [vm_compute; reflexivity|].
  apply (report_shape (Some corpus_three)). vm_compute; reflexivity.
Defined.

(** ** Order of the files, whatever the ties *)




(** ** The averages and the range of the table values *)

Lemma Zpos_of_nat_length {A : Type} (l : list A) :
  l <> [] -> Z.pos (Pos.of_nat (List.length l)) = Z.of_nat (List.length l).
Proof.
  destruct l as [|x l]; [contradiction|intros _]. simpl List.length.
  rewrite <- Pos.of_nat_succ, Zpos_P_of_succ_nat. lia.
Qed.

(** The mean of a column that holds a number. *)
Lemma mean_some (xs : list (option Z)) :
  dropna xs <> [] ->
  mean xs = Some (total (dropna xs) # Pos.of_nat (List.length (dropna xs))).
Proof.
  unfold mean. destruct (dropna xs); [contradiction|reflexivity].
Qed.

Lemma table_row_selected (root : option (list file)) (r : report)
      (c : string) (avg : option Q) (p : Q) :
  process_files root = Ok r -> In (c, avg, p) (avg_p95 r) ->
  In c (top_25_cities (frame root))
  /\ avg = mean (map duration (group_rows dest c (frame root)))
  /\ p = p95 (map duration (group_rows dest c (frame root))).
Proof.
  intros Hrun Hrow. apply report_contents in Hrun as (_ & _ & Ht & _).
  rewrite Ht in Hrow. now apply table_row in Hrow.
Qed.

(** X4: the average reported for a city is NaN exactly when the frame
    holds no duration for the city, which still is a destination of the
    frame; when the durations the frame holds for the city are in the range
    that is added exactly in doubles (their absolute values add up to less
    than 2^53) and their number divides their sum, the average is the
    quotient, the arithmetic mean of the durations. *)
Theorem table_average_is_the_mean
        (root : option (list file)) (r : report) (c : string) (avg : option Q) (p : Q) :
  process_files root = Ok r ->
  In (c, avg, p) (avg_p95 r) ->
  In c (destinations (frame root))
  /\ (avg = None <-> durations_of c (frame root) = [])
  /\ (forall m, durations_of c (frame root) <> [] ->
        in_exact_range (durations_of c (frame root)) ->
        total (durations_of c (frame root))
        = m * Z.of_nat (List.length (durations_of c (frame root))) ->
        exists q, avg = Some q /\ (q == inject_Z m)%Q).
Proof.
  intros Hrun Hrow.
  destruct (table_row_selected root r c avg p Hrun Hrow) as (Hsel & -> & _).
  split; [now apply top_25_cities_are_destinations|].
  unfold group_rows.
  destruct (list_eq_dec Z.eq_dec (durations_of c (frame root)) []) as [E|Hne].
  - unfold mean. fold (durations_of c (frame root)). rewrite E.
    split; [tauto|]. intros m H. contradiction.
  - rewrite (mean_some _ Hne). fold (durations_of c (frame root)).
    split; [split; [discriminate|contradiction]|].
    intros m _ _ Hsum. eexists. split; [reflexivity|].
    unfold Qeq, inject_Z. cbn [Qnum Qden].
    rewrite Z.mul_1_r, (Zpos_of_nat_length _ Hne). exact Hsum.
Qed.

Lemma table_average_is_the_mean_witness :
  process_files (Some corpus_ten) = Ok (report_of (process_files (Some corpus_ten)))
  /\ In ("city_1"%string, Some (5500 # 10), Numpy.percentile ten_durations 95)
        (avg_p95 (report_of (process_files (Some corpus_ten))))
  /\ in_exact_range (durations_of "city_1" (frame (Some corpus_ten)))
  /\ total (durations_of "city_1" (frame (Some corpus_ten)))
     = 550 * Z.of_nat (List.length (durations_of "city_1" (frame (Some corpus_ten))))
  /\ exists q, Some (5500 # 10) = Some q /\ (q == inject_Z 550)%Q.
Proof.
  assert (Hrun : process_files (Some corpus_ten)
                 = Ok (report_of (process_files (Some corpus_ten))))
    by (vm_compute; reflexivity).
  assert (Hrow : In ("city_1"%string, Some (5500 # 10), Numpy.percentile ten_durations 95)
                    (avg_p95 (report_of (process_files (Some corpus_ten)))))
    by (vm_compute; left; reflexivity).
  assert (Hr : in_exact_range (durations_of "city_1" (frame (Some corpus_ten))))
    by (vm_compute; reflexivity).
  assert (Hsum : total (durations_of "city_1" (frame (Some corpus_ten)))
                 = 550 * Z.of_nat (List.length
                                     (durations_of "city_1" (frame (Some corpus_ten)))))
    by (vm_compute; reflexivity).
  split; [exact Hrun|]. split; [exact Hrow|]. split; [exact Hr|]. split; [exact Hsum|].
  destruct (table_average_is_the_mean (Some corpus_ten) _ _ _ _ Hrun Hrow)
    as (_ & _ & Hmean).
  apply (Hmean 550); [vm_compute; discriminate|exact Hr|exact Hsum].
Defined.





(** ** The passenger sums *)

Lemma sum_passengers (rows : list flight) :
  sum (map passengers rows) = total (map passengers_or_zero rows).
Proof.
  unfold sum, total, passengers_or_zero.
  induction rows as [|x rows IH]; simpl; [reflexivity|].
  destruct (passengers x); simpl; lia.
Qed.

Lemma wrap_int64_small (z : Z) : - 2 ^ 63 <= z < 2 ^ 63 -> wrap_int64 z = z.
Proof. intros H. unfold wrap_int64. rewrite Z.mod_small; lia. Qed.

Lemma abs_total_filter (p : flight -> bool) (df : list flight) :
  Z.abs (total (map passengers_or_zero (filter p df)))
  <= total (map (fun r => Z.abs (passengers_or_zero r)) df).
Proof.
  unfold total. induction df as [|x df IH]; simpl; [lia|].
  destruct (p x); simpl; lia.
Qed.

(** In the exact range the sum of a group is the sum of its numbers, for an
    int64 column and for a float64 column alike. *)
Lemma sum_passengers_of_exact (by_ : flight -> option string) (df : list flight)
      (k : string) :
  passengers_in_exact_range df ->
  sum_passengers_of df (group_rows by_ k df)
  = total (map passengers_or_zero (group_rows by_ k df)).
Proof.
  intros Hr. unfold sum_passengers_of, sum_int64.
  fold (sum (map passengers (group_rows by_ k df))). rewrite sum_passengers.
  destruct (passengers_int64 df); [|reflexivity].
  apply wrap_int64_small. unfold group_rows.
  pose proof (abs_total_filter (fun r => in_group k (by_ r)) df) as Hb.
  unfold passengers_in_exact_range in Hr. lia.
Qed.

Lemma passenger_sums_In (by_ : flight -> option string) (df : list flight)
      (c : string) (s : Z) :
  passengers_in_exact_range df ->
  In (c, s) (passenger_sums by_ df) ->
  In c (group_keys by_ df)
  /\ s = total (map passengers_or_zero (group_rows by_ c df)).
Proof.
  intros Hr. unfold passenger_sums.
  rewrite (groupby_agg by_ (sum_passengers_of df)).
  intros H. apply in_map_iff in H as (k & Hk & Hin). inversion Hk; subst.
  split; [exact Hin|]. now apply sum_passengers_of_exact.
Qed.

(** X6: when the passenger numbers of the frame are in the range that
    pandas adds exactly (their absolute values add up to less than 2^53),
    the city printed as the one with most arrivals is a destination of the
    frame and the number printed with it is the sum of the passenger
    numbers of all rows of the frame with that destination, rows without a
    passenger number adding nothing; the same holds for departures and
    origins. *)
Theorem selected_sums_are_group_sums (root : option (list file)) (r : report) :
  process_files root = Ok r ->
  passengers_in_exact_range (frame root) ->
  In (max_arrived r) (destinations (frame root))
  /\ passengers_arrived r
     = total (map passengers_or_zero (group_rows dest (max_arrived r) (frame root)))
  /\ In (max_left r) (origins (frame root))
  /\ passengers_left r
     = total (map passengers_or_zero (group_rows orig (max_left r) (frame root))).
Proof.
  intros H Hr. apply report_contents in H as (_ & _ & _ & Ha & Hl).
  apply loc_idxmax_spec in Ha as [Ha _];
    [|rewrite passenger_sums_keys; apply group_keys_NoDup
     |rewrite passenger_sums_keys; apply group_keys_sorted].
  apply loc_idxmax_spec in Hl as [Hl _];
    [|rewrite passenger_sums_keys; apply group_keys_NoDup
     |rewrite passenger_sums_keys; apply group_keys_sorted].
  apply (passenger_sums_In _ _ _ _ Hr) in Ha as [Ha1 Ha2].
  apply (passenger_sums_In _ _ _ _ Hr) in Hl as [Hl1 Hl2].
  repeat split; auto.
  - apply destinations_In. now apply group_keys_In in Ha1.
  - unfold origins. apply unique_In, dropna_In. now apply group_keys_In in Hl1.
Qed.

Lemma selected_sums_are_group_sums_witness :
  process_files (Some corpus_clean_and_dirty)
    = Ok (report_of (process_files (Some corpus_clean_and_dirty)))
  /\ passengers_in_exact_range (frame (Some corpus_clean_and_dirty))
  /\ passengers_arrived (report_of (process_files (Some corpus_clean_and_dirty)))
     = total (map passengers_or_zero
                (group_rows dest
                   (max_arrived (report_of (process_files (Some corpus_clean_and_dirty))))
                   (frame (Some corpus_clean_and_dirty)))).
Proof.
  split; [vm_compute; reflexivity|].
  split; [vm_compute; reflexivity|].
  apply (selected_sums_are_group_sums (Some corpus_clean_and_dirty)).
  - vm_compute; reflexivity.
  - vm_compute; reflexivity.
Defined.


Lemma total_map_add {A : Type} (f g : A -> Z) (l : list A) :
  total (map (fun k => f k + g k) l) = total (map f l) + total (map g l).
Proof. unfold total. induction l as [|x l IH]; simpl; lia. Qed.

Lemma total_map_zero {A : Type} (f : A -> Z) (l : list A) :
  (forall k, In k l -> f k = 0) -> total (map f l) = 0.
Proof.
  unfold total. induction l as [|x l IH]; simpl; intros H; [reflexivity|].
  rewrite (H x) by now left. rewrite IH; [reflexivity|]. intros k Hk. apply H. now right.
Qed.

(** Over distinct keys, a value attached to one key is counted once. *)
Lemma total_indicator (c : string) (v : Z) (keys : list string) :
  NoDup keys -> In c keys ->
  total (map (fun k => if String.eqb c k then v else 0) keys) = v.
Proof.
  induction 1 as [|k keys Hk Hnd IH]; intros Hin; [contradiction|].
  unfold total in *. simpl. destruct Hin as [->|Hin].
  - rewrite String.eqb_refl.
    fold (total (map (fun k => if String.eqb c k then v else 0) keys)).
    rewrite total_map_zero; [lia|].
    intros k Hk'. destruct (String.eqb_spec c k) as [->|]; [contradiction|reflexivity].
  - destruct (String.eqb_spec c k) as [->|]; [contradiction|].
    rewrite IH by exact Hin. lia.
Qed.

(** The group sums over a set of distinct keys that covers the keys of the
    rows add up to the sum over the rows that have a key. *)
Lemma group_totals (by_ : flight -> option string) (keys : list string)
      (df : list flight) :
  NoDup keys -> (forall k, In (Some k) (map by_ df) -> In k keys) ->
  total (map (fun k => total (map passengers_or_zero (group_rows by_ k df))) keys)
  = total (map passengers_or_zero (keyed_rows by_ df)).
Proof.
  intros Hnd. induction df as [|x df IH]; intros Hcov.
  - simpl. apply total_map_zero. intros k _. reflexivity.
  - assert (Hcov' : forall k, In (Some k) (map by_ df) -> In k keys)
      by (intros k Hk; apply Hcov; now right).
    specialize (IH Hcov'). unfold group_rows, keyed_rows in *. simpl.
    destruct (by_ x) as [c|] eqn:Ex.
    + rewrite (map_ext
        (fun k => total (map passengers_or_zero
                     (if in_group k (Some c)
                      then x :: filter (fun r => in_group k (by_ r)) df
                      else filter (fun r => in_group k (by_ r)) df)))
        (fun k => (if String.eqb c k then passengers_or_zero x else 0)
                  + total (map passengers_or_zero
                             (filter (fun r => in_group k (by_ r)) df)))).
      * assert (Hc : In c keys) by (apply Hcov; left; exact Ex).
        rewrite total_map_add, IH, (total_indicator c _ keys Hnd Hc).
        unfold total. simpl. reflexivity.
      * intros k. simpl. destruct (String.eqb c k); [|lia].
        unfold total. simpl. reflexivity.
    + simpl. exact IH.
Qed.

(** X7: when the passenger numbers of the frame are in the range that
    pandas adds exactly (their absolute values add up to less than 2^53),
    the sums of the arrival table add up to the passengers of all rows of
    the frame that have a destination, those of the departure table to the
    passengers of all rows that have an origin; when every row has both
    cities or neither, as many passengers arrived as left. *)
Theorem passenger_sums_add_up (df : list flight) :
  passengers_in_exact_range df ->
  total (map snd (passenger_sums dest df))
    = total (map passengers_or_zero (keyed_rows dest df))
  /\ total (map snd (passenger_sums orig df))
     = total (map passengers_or_zero (keyed_rows orig df))
  /\ ((forall r, In r df -> is_val (destination_city r) = is_val (origin_city r)) ->
      total (map snd (passenger_sums dest df)) = total (map snd (passenger_sums orig df))).
Proof.
  intros Hr.
  assert (Hsum : forall by_,
             total (map snd (passenger_sums by_ df))
             = total (map passengers_or_zero (keyed_rows by_ df))).
  { intros by_. unfold passenger_sums.
    rewrite (groupby_agg by_ (sum_passengers_of df)), map_map. simpl.
    rewrite (map_ext _ (fun k => total (map passengers_or_zero (group_rows by_ k df)))).
    - apply group_totals; [apply group_keys_NoDup|].
      intros k Hk. now apply group_keys_In.
    - intros k. now apply sum_passengers_of_exact. }
  split; [apply Hsum|]. split; [apply Hsum|].
  intros Hboth. rewrite !Hsum. f_equal. f_equal. unfold keyed_rows.
  apply filter_ext_in. intros r Hin. specialize (Hboth r Hin).
  unfold dest, orig, cell.
  destruct (destination_city r), (origin_city r); simpl in *; congruence.
Qed.

Lemma passenger_sums_add_up_witness :
  passengers_in_exact_range (frame (Some corpus_clean_and_dirty))
  /\ total (map snd (passenger_sums dest (frame (Some corpus_clean_and_dirty))))
     = total (map passengers_or_zero (keyed_rows dest (frame (Some corpus_clean_and_dirty)))).
Proof.
  assert (Hr : passengers_in_exact_range (frame (Some corpus_clean_and_dirty)))
    by (vm_compute; reflexivity).
  split; [exact Hr|].
  exact (proj1 (passenger_sums_add_up (frame (Some corpus_clean_and_dirty)) Hr)).
Defined.

(** X17: the sums of an integer passenger column wrap around as int64
    additions do: with two flights of 2^62 passengers to city_1 and one
    flight of 7 passengers to city_2, all with a passenger number, the
    arrival table holds -2^63 for city_1, whose rows add up to 2^63, and the
    report names city_2 with 7 arrivals; the departure table wraps in the
    same way.  The passenger numbers of this frame are outside the range
    that is added exactly. *)
Theorem passenger_sums_wrap_around :
  passengers_int64 (frame (Some corpus_wrapping)) = true
  /\ ~ passengers_in_exact_range (frame (Some corpus_wrapping))
  /\ total (map passengers_or_zero
              (group_rows dest "city_1" (frame (Some corpus_wrapping)))) = 2 ^ 63
  /\ passenger_sums dest (frame (Some corpus_wrapping))
     = [("city_1"%string, - 2 ^ 63); ("city_2"%string, 7)]
  /\ passenger_sums orig (frame (Some corpus_wrapping))
     = [("city_0"%string, - 2 ^ 63); ("city_3"%string, 7)]
  /\ exists r, process_files (Some corpus_wrapping) = Ok r
       /\ max_arrived r = "city_2"%string /\ passengers_arrived r = 7
       /\ max_left r = "city_3"%string /\ passengers_left r = 7.
Proof.
  split; [reflexivity|].
  split; [intros H; vm_compute in H; discriminate H|].
  split; [vm_compute; reflexivity|].
  split; [vm_compute; reflexivity|].
  split; [vm_compute; reflexivity|].
  eexists. split; [vm_compute; reflexivity|]. repeat split.
Qed.

(** ** Few destinations *)

(** X8: when the frame has at most 25 destination cities, every one of
    them has a row in the reported table: the table lists all destination
    cities in ascending order of identifier. *)
Theorem every_destination_has_a_row_when_at_most_25
        (root : option (list file)) (r : report) :
  process_files root = Ok r ->
  (List.length (destinations (frame root)) <= 25)%nat ->
  table_cities (avg_p95 r) = sort String.leb (destinations (frame root))
  /\ (forall c, In (Some c) (map dest (frame root)) -> In c (table_cities (avg_p95 r))).
Proof.
  intros H Hlen. apply report_contents in H as (_ & _ & Ht & _). rewrite Ht.
  assert (Heq : table_cities (avg_p95_table (frame root))
                = sort String.leb (destinations (frame root))).
  { rewrite table_cities_sorted_selection.
    apply sort_perm_eq.
    - apply String.leb_total.
    - apply string_leb_trans.
    - apply String.leb_antisym.
    - rewrite top_25_cities_ranked, firstn_all2.
      + apply ranked_keys.
      + now rewrite (Permutation_length (ranked_keys (frame root))). }
  split; [exact Heq|].
  intros c Hc. rewrite Heq.
  eapply Permutation_in; [apply Permutation_sym, sort_perm|].
  now apply destinations_In.
Qed.

Lemma every_destination_has_a_row_when_at_most_25_witness :
  process_files (Some corpus_three) = Ok (report_of (process_files (Some corpus_three)))
  /\ (List.length (destinations (frame (Some corpus_three))) <= 25)%nat
  /\ table_cities (avg_p95 (report_of (process_files (Some corpus_three))))
     = sort String.leb (destinations (frame (Some corpus_three))).
Proof.
  assert (Hlen : (List.length (destinations (frame (Some corpus_three))) <= 25)%nat)
    by (vm_compute; lia).
  split; [vm_compute; reflexivity|]. split; [exact Hlen|].
  apply (every_destination_has_a_row_when_at_most_25 (Some corpus_three)).
  - vm_compute; reflexivity.
  - exact Hlen.
Defined.


(** * Further properties of the generator *)

(** ** The values of a generated record *)

Lemma randint_bounds (a b : Z) (draw : nat) :
  a <= b -> a <= randint a b draw <= b.
Proof.
  intros H. unfold randint.
  pose proof (Z.mod_pos_bound (Z.of_nat draw) (b - a + 1)). lia.
Qed.

Lemma cities_not_empty : cities <> [].
Proof. unfold cities, total_cities. intros H. apply (f_equal (@List.length string)) in H.
  rewrite length_map, length_seq in H. discriminate H. Qed.

(** X11: each field of a generated record holds the value drawn for it,
    unless it is the field drawn for the null, which holds null: today's
    date, the origin and the destination chosen out of [cities], the
    duration drawn between 3600 and 7200 seconds, the passenger number drawn
    between 50 and 200; the record has no other key. *)
Theorem generated_record_values_in_range (d : draws) :
  date (generate_flight_record d)
  = (if nulled d Kdate then Null else Val (today d))
  /\ origin_city (generate_flight_record d)
     = (if nulled d Korigin_city then Null
        else Val (choice (draw_origin d) cities EmptyString))
  /\ destination_city (generate_flight_record d)
     = (if nulled d Kdestination_city then Null
        else Val (choice (draw_destination d) cities EmptyString))
  /\ flight_duration_secs (generate_flight_record d)
     = (if nulled d Kflight_duration_secs then Null
        else Val (randint 3600 7200 (draw_duration d)))
  /\ num_passengers (generate_flight_record d)
     = (if nulled d Knum_passengers then Null
        else Val (randint 50 200 (draw_passengers d)))
  /\ others (generate_flight_record d) = []
  /\ In (choice (draw_origin d) cities EmptyString) cities
  /\ In (choice (draw_destination d) cities EmptyString) cities
  /\ 3600 <= randint 3600 7200 (draw_duration d) <= 7200
  /\ 50 <= randint 50 200 (draw_passengers d) <= 200.
Proof.
  pose proof (choice_in (draw_origin d) cities EmptyString cities_not_empty) as Ho.
  pose proof (choice_in (draw_destination d) cities EmptyString cities_not_empty) as Hd.
  pose proof (randint_bounds 3600 7200 (draw_duration d) ltac:(lia)) as Hu.
  pose proof (randint_bounds 50 200 (draw_passengers d) ltac:(lia)) as Hp.
  unfold generate_flight_record, nulled.
  revert Ho Hd Hu Hp.
  generalize (choice (draw_origin d) cities EmptyString).
  generalize (choice (draw_destination d) cities EmptyString).
  generalize (randint 3600 7200 (draw_duration d)).
  generalize (randint 50 200 (draw_passengers d)).
  generalize cities.
  intros cs pax secs dst org Ho Hd Hu Hp.
  destruct (Qltb (draw_uniform d) prob_null).
  - destruct (choice (draw_null_field d) all_keys Kdate);
      cbn [set_none date origin_city destination_city flight_duration_secs
           num_passengers others andb key_eqb];
      repeat split; solve [assumption | lia].
  - cbn [date origin_city destination_city flight_duration_secs num_passengers
         others andb].
    repeat split; solve [assumption | lia].
Qed.

(** ** The city identifiers *)

Lemma decimal_value_shift (s : string) (acc : nat) :
  decimal_value acc s = (acc * 10 ^ String.length s + decimal_value 0 s)%nat.
Proof.
  revert acc. induction s as [|c s IH]; intros acc.
  - cbn [decimal_value String.length]. rewrite Nat.pow_0_r. lia.
  - cbn [decimal_value String.length]. rewrite IH.
    rewrite (IH (10 * 0 + (nat_of_ascii c - 48))%nat).
    rewrite Nat.pow_succ_r'. nia.
Qed.

Lemma digit_value (n : nat) :
  (nat_of_ascii (ascii_of_nat (48 + n mod 10)) - 48 = n mod 10)%nat.
Proof.
  pose proof (Nat.mod_upper_bound n 10 ltac:(lia)) as H.
  rewrite nat_ascii_embedding by lia. lia.
Qed.

Lemma digits_step (fuel n : nat) (acc : string) :
  digits (S fuel) n acc
  = if (n / 10 =? 0)%nat then String (ascii_of_nat (48 + n mod 10)) acc
    else digits fuel (n / 10) (String (ascii_of_nat (48 + n mod 10)) acc).
Proof. reflexivity. Qed.

Lemma digits_value (fuel n : nat) (acc : string) :
  (n < fuel)%nat ->
  decimal_value 0 (digits fuel n acc)
  = (n * 10 ^ String.length acc + decimal_value 0 acc)%nat.
Proof.
  revert n acc. induction fuel as [|fuel IH]; intros n acc Hlt; [lia|].
  rewrite digits_step.
  pose proof (Nat.div_mod_eq n 10) as Hn.
  assert (Hacc : decimal_value 0 (String (ascii_of_nat (48 + n mod 10)) acc)
                 = (n mod 10 * 10 ^ String.length acc + decimal_value 0 acc)%nat).
  { cbn [decimal_value]. rewrite decimal_value_shift, digit_value. lia. }
  destruct (Nat.eqb_spec (n / 10) 0) as [E|E].
  - rewrite Hacc. rewrite E in Hn. replace (n mod 10)%nat with n by lia. reflexivity.
  - rewrite IH by lia. rewrite Hacc. cbn [String.length].
    rewrite Nat.pow_succ_r'. nia.
Qed.

Lemma str_of_nat_value (n : nat) : decimal_value 0 (str_of_nat n) = n.
Proof.
  unfold str_of_nat. rewrite digits_value by lia.
  cbn [String.length decimal_value]. rewrite Nat.pow_0_r. lia.
Qed.

Lemma str_of_nat_injective (n m : nat) : str_of_nat n = str_of_nat m -> n = m.
Proof.
  intros H. rewrite <- (str_of_nat_value n), <- (str_of_nat_value m). now rewrite H.
Qed.

Lemma city_name_injective (n m : nat) :
  ("city_" ++ str_of_nat n)%string = ("city_" ++ str_of_nat m)%string -> n = m.
Proof.
  intros H. apply str_of_nat_injective.
  cbn [String.append] in H. now inversion H.
Qed.

Lemma NoDup_map_injective {A B : Type} (f : A -> B) (l : list A) :
  (forall a b, f a = f b -> a = b) -> NoDup l -> NoDup (map f l).
Proof.
  intros Hinj. induction 1 as [|x l Hx Hnd IH]; simpl; constructor; [|exact IH].
  intros Hin. apply in_map_iff in Hin as (y & Hy & Hin).
  apply Hinj in Hy. subst y. contradiction.
Qed.

(** X12: the city identifiers are ["city_"] followed by the decimal numeral
    of their index, which reads back as the index; there are [total_cities]
    (150) of them and they are pairwise distinct. *)
Theorem cities_are_distinct :
  List.length cities = total_cities
  /\ NoDup cities
  /\ (forall i, (i < total_cities)%nat ->
        nth i cities EmptyString = ("city_" ++ str_of_nat i)%string
        /\ decimal_value 0 (str_of_nat i) = i).
Proof.
  unfold cities. generalize total_cities. intros n.
  split; [now rewrite length_map, length_seq|]. split.
  - apply NoDup_map_injective; [|apply seq_NoDup].
    intros a b H. now apply city_name_injective.
  - intros i Hi. split; [|apply str_of_nat_value].
    rewrite (nth_indep _ EmptyString ("city_" ++ str_of_nat 0)%string)
      by now rewrite length_map, length_seq.
    rewrite (map_nth (fun i => ("city_" ++ str_of_nat i)%string)).
    now rewrite seq_nth.
Qed.


(** * Properties of the corpus writer and of the whole program *)

(** ** The directory *)

Lemma write_In (name : string) (content : file) (d : directory) (entry : string * file) :
  In entry (write name content d) -> entry = (name, content) \/ In entry d.
Proof.
  induction d as [|[n c] d IH]; simpl.
  - intros [H|[]]; auto.
  - destruct (String.eqb_spec n name) as [->|Hne]; simpl.
    + intros [H|H]; auto.
    + intros [H|H]; auto. destruct (IH H); auto.
Qed.

Lemma write_names (name : string) (content : file) (d : directory) (n : string) :
  In n (map fst (write name content d)) <-> n = name \/ In n (map fst d).
Proof.
  induction d as [|[m c] d IH]; simpl.
  - split; intros [H|H]; auto; contradiction.
  - destruct (String.eqb_spec m name) as [->|Hne]; simpl.
    + split; intros [H|H]; auto.
    + rewrite IH. tauto.
Qed.

Lemma write_NoDup (name : string) (content : file) (d : directory) :
  NoDup (map fst d) -> NoDup (map fst (write name content d)).
Proof.
  induction d as [|[m c] d IH]; simpl; intros H.
  - constructor; [auto|constructor].
  - inversion H as [|? ? Hm Hd]; subst.
    destruct (String.eqb_spec m name) as [->|Hne]; simpl.
    + now constructor.
    + constructor; [|now apply IH].
      rewrite write_names. intros [E|E]; [congruence|contradiction].
Qed.

Lemma write_length (name : string) (content : file) (d : directory) :
  (List.length d <= List.length (write name content d) <= S (List.length d))%nat
  /\ (1 <= List.length (write name content d))%nat.
Proof.
  induction d as [|[m c] d IH]; simpl; [lia|].
  destruct (String.eqb m name); simpl; lia.
Qed.

(** What the loop leaves on disk when it ends: files of distinct names, each
    written by one of the iterations, on top of what was there. *)
Lemma write_files_ok (fl : faults) (rnd : nat -> file_draws) (indices : list nat)
      (d d' : directory) :
  write_files fl rnd indices d = Ok d' ->
  NoDup (map fst d) ->
  NoDup (map fst d')
  /\ (List.length d <= List.length d' <= List.length d + List.length indices)%nat
  /\ (indices <> [] -> d' <> [])
  /\ forall entry, In entry d' ->
       In entry d
       \/ exists i, In i indices
                    /\ entry = (filename (rnd i), file_of (generate_records (rnd i))).
Proof.
  revert d. induction indices as [|i rest IH]; simpl; intros d H Hnd.
  - inversion H; subst. repeat split; auto; try lia.
  - destruct (open_fault fl i); [discriminate|].
    apply IH in H; [|now apply write_NoDup].
    destruct H as (Hnd' & Hlen & _ & Hin).
    pose proof (write_length (filename (rnd i))
                  (Parsed (Array (map Obj (generate_records (rnd i))))) d) as [Hw Hw1].
    repeat split; auto; try lia.
    + intros _ E. subst d'. simpl in Hlen. lia.
    + intros entry He. destruct (Hin entry He) as [Hd|(j & Hj & Hej)].
      * apply write_In in Hd as [Hd|Hd]; [right|auto].
        exists i. split; [now left|exact Hd].
      * right. exists j. split; [now right|exact Hej].
Qed.

Lemma write_files_no_fault (fl : faults) (rnd : nat -> file_draws) (indices : list nat)
      (d : directory) :
  (forall i, In i indices -> open_fault fl i = None) ->
  exists d', write_files fl rnd indices d = Ok d'.
Proof.
  revert d. induction indices as [|i rest IH]; simpl; intros d H; [eauto|].
  rewrite (H i) by now left. apply IH. intros j Hj. apply H. now right.
Qed.

Lemma write_files_raise (fl : faults) (rnd : nat -> file_draws) (indices : list nat)
      (d : directory) :
  match write_files fl rnd indices d with
  | Ok _ => True
  | Raise e => exists i msg, In i indices /\ open_fault fl i = Some msg /\ e = OSError msg
  | Unspecified => False
  end.
Proof.
  revert d. induction indices as [|i rest IH]; simpl; intros d; [exact I|].
  destruct (open_fault fl i) as [msg|] eqn:E.
  - exists i, msg. auto.
  - specialize (IH (write (filename (rnd i))
                      (Parsed (Array (map Obj (generate_records (rnd i))))) d)).
    destruct (write_files fl rnd rest _); auto.
    destruct IH as (j & msg & Hj & Hm & He). exists j, msg. auto.
Qed.

(** How the body of the [try] ends: with the directory the loop leaves, or
    with the [OSError] of one of the three kinds of fault. *)
Lemma generate_files_body_outcome (fl : faults) (rnd : nat -> file_draws)
      (before : option directory) :
  match snd (generate_files_body fl rnd before) with
  | Ok d =>
      write_files fl rnd (seq 0 number_files) [] = Ok d
      /\ makedirs_fault fl = None
      /\ (before = None \/ rmtree_fault fl = None)
  | Raise e =>
      exists msg, e = OSError msg
        /\ ((before <> None /\ rmtree_fault fl = Some msg)
            \/ makedirs_fault fl = Some msg
            \/ exists i, (i < number_files)%nat /\ open_fault fl i = Some msg)
  | Unspecified => False
  end.
Proof.
  unfold generate_files_body.
  pose proof (write_files_raise fl rnd (seq 0 number_files) []) as Hw.
  destruct (write_files fl rnd (seq 0 number_files) []) as [d|e|] eqn:Ew.
  - destruct before as [old|]; [destruct (rmtree_fault fl) as [m|] eqn:Er|];
      cbn [fst snd]; destruct (makedirs_fault fl) as [m'|] eqn:Em; cbn [fst snd];
      eauto 10.
    + exists m. split; [reflexivity|]. left. split; [discriminate|reflexivity].
    + exists m. split; [reflexivity|]. left. split; [discriminate|reflexivity].
  - destruct Hw as (i & msg & Hi & Hm & ->). apply in_seq in Hi.
    destruct before as [old|]; [destruct (rmtree_fault fl) as [m|] eqn:Er|];
      cbn [fst snd]; destruct (makedirs_fault fl) as [m'|] eqn:Em; cbn [fst snd];
      eauto 10.
    + exists m. split; [reflexivity|]. left. split; [discriminate|reflexivity].
    + exists m. split; [reflexivity|]. left. split; [discriminate|reflexivity].
    + exists msg. split; [reflexivity|]. right. right. exists i. split; [lia|exact Hm].
    + exists msg. split; [reflexivity|]. right. right. exists i. split; [lia|exact Hm].
  - contradiction.
Qed.

(** X13: whatever [OSError] the operating system answers with while
    [generate_files] removes, creates or fills the directory, the exception
    that leaves [generate_files] is an [OSError] with the fixed message
    ["tmp/flights exists, can not be removed"]; the message of the fault is
    only printed, followed by the fixed line.  [main] then prints
    ["Error : "] and the fixed line, the analysis is not run, and the exit
    status is 0. *)
Theorem generate_files_failure_is_renamed (fl : faults) (rnd : nat -> file_draws)
        (before : option directory) (e : exn) :
  snd (generate_files fl rnd before) = Raise e ->
  e = OSError cannot_be_removed
  /\ (exists pre msg,
        fst (generate_files fl rnd before) = pre ++ [msg; cannot_be_removed]
        /\ ((before <> None /\ rmtree_fault fl = Some msg)
            \/ makedirs_fault fl = Some msg
            \/ exists i, (i < number_files)%nat /\ open_fault fl i = Some msg))
  /\ forall visit, snd (run fl rnd before visit) = Ok (PrintedError cannot_be_removed, 0).
Proof.
  intros H.
  assert (He : e = OSError cannot_be_removed
               /\ exists pre msg,
                    fst (generate_files fl rnd before) = pre ++ [msg; cannot_be_removed]
                    /\ ((before <> None /\ rmtree_fault fl = Some msg)
                        \/ makedirs_fault fl = Some msg
                        \/ exists i, (i < number_files)%nat /\ open_fault fl i = Some msg)).
  { revert H. unfold generate_files.
    pose proof (generate_files_body_outcome fl rnd before) as Hb.
    destruct (generate_files_body fl rnd before) as [lines [d|e'|]];
      cbn [fst snd] in *.
    - intros H. discriminate H.
    - destruct Hb as (msg & -> & Hfault). cbn [fst snd].
      intros H. inversion H; subst e. split; [reflexivity|].
      exists lines, msg. split; [reflexivity|exact Hfault].
    - contradiction. }
  destruct He as [-> He]. split; [reflexivity|]. split; [exact He|].
  intros visit. unfold run. cbv zeta. cbn [fst snd]. rewrite H. reflexivity.
Qed.

Lemma generate_files_failure_is_renamed_witness :
  snd (generate_files makedirs_denied plain_file_draws None)
    = Raise (OSError cannot_be_removed)
  /\ snd (run makedirs_denied plain_file_draws None (map snd))
     = Ok (PrintedError cannot_be_removed, 0).
Proof.
  assert (H : snd (generate_files makedirs_denied plain_file_draws None)
              = Raise (OSError cannot_be_removed)) by reflexivity.
  split; [exact H|].
  apply (generate_files_failure_is_renamed makedirs_denied plain_file_draws None _ H).
Defined.

Lemma generate_records_length (fd : file_draws) :
  (50 <= List.length (generate_records fd) <= 100)%nat.
Proof.
  unfold generate_records. rewrite length_map, length_seq.
  pose proof (randint_bounds 50 100 (draw_size fd) ltac:(lia)) as H.
  cbn [records_per_file fst snd]. lia.
Qed.

Lemma generate_files_success (fl : faults) (rnd : nat -> file_draws)
      (before : option directory) :
  (before = None \/ rmtree_fault fl = None) ->
  makedirs_fault fl = None ->
  (forall i, (i < number_files)%nat -> open_fault fl i = None) ->
  exists d, write_files fl rnd (seq 0 number_files) [] = Ok d
            /\ snd (generate_files fl rnd before) = Ok d.
Proof.
  intros Hrm Hmk Hopen.
  destruct (write_files_no_fault fl rnd (seq 0 number_files) []) as [d Hd].
  { intros i Hi. apply in_seq in Hi. apply Hopen. lia. }
  exists d. split; [exact Hd|].
  unfold generate_files, generate_files_body.
  destruct before as [old|].
  - destruct Hrm as [Hrm|Hrm]; [discriminate|].
    rewrite Hrm. cbn [fst snd]. rewrite Hmk, Hd. reflexivity.
  - cbn [fst snd]. rewrite Hmk, Hd. reflexivity.
Qed.

Lemma number_files_positive : seq 0 number_files <> [].
Proof.
  intros H. apply (f_equal (@List.length nat)) in H. rewrite length_seq in H.
  discriminate H.
Qed.

(** X14: when the operating system reports no fault, [generate_files]
    succeeds and leaves in the directory only files written by this call
    (what was there before is gone: the outcome is that of a call on a
    missing directory): at least one and at most [number_files] files of
    distinct names, each named after the time stamp and city of one
    iteration and holding the 50 to 100 records generated in it. *)
Theorem generate_files_replaces_the_corpus (fl : faults) (rnd : nat -> file_draws)
        (before : option directory) :
  (before = None \/ rmtree_fault fl = None) ->
  makedirs_fault fl = None ->
  (forall i, (i < number_files)%nat -> open_fault fl i = None) ->
  exists d, snd (generate_files fl rnd before) = Ok d
    /\ snd (generate_files fl rnd None) = Ok d
    /\ NoDup (map fst d)
    /\ (1 <= List.length d <= number_files)%nat
    /\ forall name content, In (name, content) d ->
         exists i, (i < number_files)%nat
           /\ name = filename (rnd i)
           /\ content = file_of (generate_records (rnd i))
           /\ (50 <= List.length (generate_records (rnd i)) <= 100)%nat.
Proof.
  intros Hrm Hmk Hopen.
  destruct (generate_files_success fl rnd before Hrm Hmk Hopen) as (d & Hw & Hg).
  destruct (generate_files_success fl rnd None (or_introl eq_refl) Hmk Hopen)
    as (d0 & Hw0 & Hg0).
  assert (d0 = d) as -> by congruence.
  exists d. split; [exact Hg|]. split; [exact Hg0|].
  destruct (write_files_ok fl rnd _ _ _ Hw (NoDup_nil _)) as (Hnd & Hlen & Hne & Hin).
  split; [exact Hnd|]. split.
  - rewrite length_seq in Hlen. simpl List.length in Hlen.
    specialize (Hne number_files_positive). destruct d; [contradiction|].
    simpl List.length in *. lia.
  - intros name content He. destruct (Hin _ He) as [[]|(i & Hi & Heq)].
    apply in_seq in Hi. inversion Heq; subst. exists i.
    split; [lia|]. split; [reflexivity|]. split; [reflexivity|].
    apply generate_records_length.
Qed.

Lemma generate_files_replaces_the_corpus_witness :
  makedirs_fault no_faults = None
  /\ exists d, snd (generate_files no_faults plain_file_draws (Some [])) = Ok d
               /\ snd (generate_files no_faults plain_file_draws None) = Ok d.
Proof.
  split; [reflexivity|].
  destruct (generate_files_replaces_the_corpus no_faults plain_file_draws (Some []))
    as (d & H1 & H2 & _).
  - right. reflexivity.
  - reflexivity.
  - intros i _. reflexivity.
  - exists d. split; [exact H1|exact H2].
Defined.

Lemma generated_record_shape (d : draws) :
  forallb (fun k => has_key k (generate_flight_record d)) all_keys = true
  /\ (null_count (generate_flight_record d) <= 1)%nat
  /\ other_nulls (generate_flight_record d) = false.
Proof.
  unfold generate_flight_record.
  generalize (choice (draw_origin d) cities EmptyString).
  generalize (choice (draw_destination d) cities EmptyString).
  generalize (randint 3600 7200 (draw_duration d)).
  generalize (randint 50 200 (draw_passengers d)).
  intros pax secs dst org.
  destruct (Qltb (draw_uniform d) prob_null).
  - destruct (choice (draw_null_field d) all_keys Kdate); repeat split; cbn;
      lia || reflexivity.
  - repeat split; cbn; lia || reflexivity.
Qed.

Lemma passes_file_of (rs : list flight) : passes (file_of rs) = true.
Proof.
  unfold file_of. simpl. induction rs as [|r rs IH]; simpl; auto.
Qed.

Lemma records_of_file_of (rs : list flight) : records_of (file_of rs) = rs.
Proof. unfold file_of. simpl. apply dicts_map_Obj. Qed.

Lemma flat_map_length_bounds {A B : Type} (f : A -> list B) (lo hi : nat) (l : list A) :
  (forall x, In x l -> (lo <= List.length (f x) <= hi)%nat) ->
  (lo * List.length l <= List.length (flat_map f l) <= hi * List.length l)%nat.
Proof.
  induction l as [|x l IH]; simpl; intros H; [lia|].
  rewrite length_app.
  assert (Hx : (lo <= List.length (f x) <= hi)%nat) by (apply H; now left).
  assert (Hl : (lo * List.length l <= List.length (flat_map f l) <= hi * List.length l)%nat)
    by (apply IH; intros y Hy; apply H; now right).
  lia.
Qed.

Lemma clean_has_values (df : list flight) :
  existsb clean df = true ->
  has_value dest df = true /\ has_value duration df = true
  /\ has_value passengers df = true /\ has_value orig df = true.
Proof.
  intros H. apply existsb_exists in H as (x & Hin & Hx).
  unfold has_value. rewrite !existsb_exists.
  destruct x as [[| |a] [| |b] [| |c] [| |e] [| |g]]; try discriminate Hx.
  repeat split; eexists; (split; [exact Hin|reflexivity]).
Qed.

(** X15: when generation succeeds, in whatever order the walk visits the
    written files, each of them gets through the loop of the analysis, every
    record of the frame carries all five keys and at most one null, so that
    it is dirty exactly when it is not clean, and the frame has between 50
    and 100 records per file; if at least one record is clean the program
    prints a report, whose total is its dirty count plus the number of clean
    records. *)
Theorem generated_corpus_is_analysed (fl : faults) (rnd : nat -> file_draws)
        (before : option directory) (visit : directory -> list file) :
  (before = None \/ rmtree_fault fl = None) ->
  makedirs_fault fl = None ->
  (forall i, (i < number_files)%nat -> open_fault fl i = None) ->
  (forall d, Permutation (visit d) (map snd d)) ->
  exists d, snd (generate_files fl rnd before) = Ok d
    /\ forallb passes (visit d) = true
    /\ all_keys_present (frame (Some (visit d))) = true
    /\ (forall x, In x (frame (Some (visit d))) ->
          has_none x = negb (clean x) /\ (null_count x <= 1)%nat)
    /\ (50 * List.length d <= List.length (frame (Some (visit d)))
        <= 100 * List.length d)%nat
    /\ (existsb clean (frame (Some (visit d))) = true ->
        exists r, snd (run fl rnd before visit) = Ok (PrintedReport r, 0)
          /\ rep_total_records r = List.length (frame (Some (visit d)))
          /\ rep_total_records r
             = (rep_dirty_records r
                + List.length (filter clean (frame (Some (visit d)))))%nat).
Proof.
  intros Hrm Hmk Hopen Hvisit.
  destruct (generate_files_success fl rnd before Hrm Hmk Hopen) as (d & Hw & Hg).
  exists d. split; [exact Hg|].
  destruct (write_files_ok fl rnd _ _ _ Hw (NoDup_nil _)) as (_ & _ & _ & Hin).
  assert (Hfile : forall f, In f (visit d) ->
                    exists i, f = file_of (generate_records (rnd i))).
  { intros f Hf. eapply Permutation_in in Hf; [|apply Hvisit].
    apply in_map_iff in Hf as ([name content] & Hc & He). simpl in Hc. subst content.
    destruct (Hin _ He) as [[]|(i & _ & Heq)]. inversion Heq. eauto. }
  assert (Hrec : forall x, In x (frame (Some (visit d))) ->
                   exists dr, x = generate_flight_record dr).
  { intros x Hx. unfold frame in Hx. simpl os_walk in Hx.
    apply in_flat_map in Hx as (f & Hf & Hx).
    destruct (Hfile f Hf) as (i & ->). rewrite records_of_file_of in Hx.
    unfold generate_records in Hx. apply in_map_iff in Hx as (j & Hj & _). eauto. }
  assert (Hpass : forallb passes (visit d) = true).
  { apply forallb_forall. intros f Hf. destruct (Hfile f Hf) as (i & ->).
    apply passes_file_of. }
  assert (Hkeys : all_keys_present (frame (Some (visit d))) = true).
  { unfold all_keys_present. apply forallb_forall. intros x Hx.
    destruct (Hrec x Hx) as (dr & ->). apply generated_record_shape. }
  assert (Hcls : forall x, In x (frame (Some (visit d))) -> clean x = negb (has_none x)).
  { intros x Hx. apply clean_is_not_has_none.
    - unfold all_keys_present in Hkeys. rewrite forallb_forall in Hkeys.
      now apply Hkeys.
    - destruct (Hrec x Hx) as (dr & ->). apply generated_record_shape. }
  split; [exact Hpass|]. split; [exact Hkeys|]. split.
  { intros x Hx. split.
    - rewrite (Hcls x Hx). now rewrite negb_involutive.
    - destruct (Hrec x Hx) as (dr & ->). apply generated_record_shape. }
  split.
  { unfold frame. simpl os_walk.
    rewrite <- (length_map snd d), <- (Permutation_length (Hvisit d)).
    apply flat_map_length_bounds. intros f Hf. destruct (Hfile f Hf) as (i & ->).
    rewrite records_of_file_of. apply generate_records_length. }
  intros Hclean. apply clean_has_values in Hclean as (Hd & Hu & Hx & Ho).
  destruct (process_files_reports (Some (visit d)) Hpass Hd Hu Hx Ho) as [r Hr].
  exists r. split.
  { unfold run. cbv zeta. cbn [fst snd]. rewrite Hg. cbn [bind]. unfold main.
    cbn [bind]. rewrite Hr. reflexivity. }
  apply report_contents in Hr as (Ht & Hdirty & _). split; [exact Ht|].
  rewrite Ht, Hdirty, (filter_partition_length has_none). f_equal. f_equal.
  apply filter_ext_in. intros x Hx'. symmetry. now apply Hcls.
Qed.

Lemma generated_corpus_is_analysed_witness :
  makedirs_fault no_faults = None
  /\ (forall d : directory, Permutation (map snd d) (map snd d))
  /\ exists d, snd (generate_files no_faults plain_file_draws None) = Ok d
               /\ forallb passes (map snd d) = true.
Proof.
  split; [reflexivity|]. split; [intros d; apply Permutation_refl|].
  destruct (generated_corpus_is_analysed no_faults plain_file_draws None (map snd))
    as (d & H1 & H2 & _).
  - left. reflexivity.
  - reflexivity.
  - intros i _. reflexivity.
  - intros d. apply Permutation_refl.
  - exists d. split; [exact H1|exact H2].
Defined.


(** * A missing corpus root *)

(** What the walk finds of a corpus written without a fault passes the loop
    and consists of generated records; with a clean record among them the
    program prints a report. *)
Lemma run_on_written_corpus (fl : faults) (rnd : nat -> file_draws)
      (before : option directory) (visit : directory -> list file) :
  (before = None \/ rmtree_fault fl = None) ->
  makedirs_fault fl = None ->
  (forall i, (i < number_files)%nat -> open_fault fl i = None) ->
  (forall d, Permutation (visit d) (map snd d)) ->
  exists d, write_files fl rnd (seq 0 number_files) [] = Ok d
    /\ snd (generate_files fl rnd before) = Ok d
    /\ (existsb clean (frame (Some (visit d))) = true ->
        exists r, snd (run fl rnd before visit) = Ok (PrintedReport r, 0)).
Proof.
  intros Hrm Hmk Hopen Hvisit.
  destruct (generate_files_success fl rnd before Hrm Hmk Hopen) as (d & Hw & Hg).
  exists d. split; [exact Hw|]. split; [exact Hg|].
  destruct (write_files_ok fl rnd _ _ _ Hw (NoDup_nil _)) as (_ & _ & _ & Hin).
  assert (Hpass : forallb passes (visit d) = true).
  { apply forallb_forall. intros f Hf. eapply Permutation_in in Hf; [|apply Hvisit].
    apply in_map_iff in Hf as ([name content] & Hc & He). simpl in Hc. subst content.
    destruct (Hin _ He) as [[]|(i & _ & Heq)]. inversion Heq. apply passes_file_of. }
  intros Hclean. apply clean_has_values in Hclean as (Hd & Hu & Hx & Ho).
  destruct (process_files_reports (Some (visit d)) Hpass Hd Hu Hx Ho) as [r Hr].
  exists r. unfold run. cbv zeta. cbn [fst snd]. rewrite Hg. cbn [bind]. unfold main.
  cbn [bind]. rewrite Hr. reflexivity.
Qed.

(** C9 (as the program has it): the analysis on its own walks a missing
    root as an empty tree, leaves the counters untouched and raises
    [KeyError] on the first column of the empty frame, with no report.  In
    the program the generator runs first: a root that does not exist is
    created and filled, and when the operating system reports no fault and
    a record without null is among the records written, the report is
    printed.  Whatever the program prints, its exit status is 0. *)
Theorem C9_missing_root_is_no_failure_of_the_run :
  read_files (os_walk None) (mk_counters 0 0 []) = Ok (mk_counters 0 0 [])
  /\ process_files None = Raise (KeyError "destination_city")
  /\ (forall r, process_files None <> Ok r)
  /\ (forall fl rnd visit,
        makedirs_fault fl = None ->
        (forall i, (i < number_files)%nat -> open_fault fl i = None) ->
        (forall d, Permutation (visit d) (map snd d)) ->
        exists d, snd (generate_files fl rnd None) = Ok d
          /\ (existsb clean (frame (Some (visit d))) = true ->
              exists r, snd (run fl rnd None visit) = Ok (PrintedReport r, 0)))
  /\ (forall fl rnd before visit out status,
        snd (run fl rnd before visit) = Ok (out, status) -> status = 0).
Proof.
  split; [reflexivity|]. split; [reflexivity|].
  split; [intros r H; discriminate H|]. split.
  - intros fl rnd visit Hmk Hopen Hvisit.
    destruct (run_on_written_corpus fl rnd None visit (or_introl eq_refl) Hmk Hopen Hvisit)
      as (d & _ & Hg & Hrep).
    exists d. split; [exact Hg|exact Hrep].
  - intros fl rnd before visit out status. unfold run. cbv zeta. cbn [fst snd].
    destruct (snd (generate_files fl rnd before)) as [d|e|]; unfold main; cbn [bind].
    + destruct (process_files (Some (visit d))) as [r|e|]; [|destruct e|];
        intros H; inversion H; reflexivity.
    + destruct e; intros H; inversion H; reflexivity.
    + discriminate.
Qed.

(** C9, counterexample: started without a corpus root and without a fault
    of the operating system, with draws that inject no null, the program
    creates the root and prints the report, with exit status 0. *)
Lemma C9_missing_root_run_prints_a_report :
  exists r, snd (run no_faults plain_file_draws None (map snd)) = Ok (PrintedReport r, 0).
Proof.
  destruct (run_on_written_corpus no_faults plain_file_draws None (map snd))
    as (d & Hw & _ & Hrep).
  - left. reflexivity.
  - reflexivity.
  - intros i _. reflexivity.
  - intros d. apply Permutation_refl.
  - apply Hrep.
    destruct (write_files_ok _ _ _ _ _ Hw (NoDup_nil _)) as (_ & _ & Hne & Hin).
    destruct d as [|[name content] d].
    { exfalso. apply Hne; [|reflexivity]. intros E.
      apply (f_equal (@List.length nat)) in E. rewrite length_seq in E. discriminate E. }
    destruct (Hin (name, content) (or_introl eq_refl)) as [[]|(i & _ & Heq)].
    inversion Heq as [[Hname Hcontent]].
    unfold frame. cbn [os_walk map snd flat_map].
    rewrite records_of_file_of, existsb_app. apply orb_true_iff. left.
    unfold generate_records, plain_file_draws. cbn [draw_records draw_size].
    reflexivity.
Qed.

(** * Growing the corpus *)








